(** * Planetary Computer APIs: render configuration, animation requests,
      frame stamps and the item map endpoint

    A shallow embedding of
      - [pccommon/pccommon/render.py]          (module [render]),
      - [pcfuncs/animation/models.py]          (module [models]),
      - [pcfuncs/funclib/stamps/progress_bar.py] (module [progress_bar]),
      - [pctiler/pctiler/endpoints/item.py]    (module [item]),
    preceded by the fragment of Python's built-ins these files call
    (module [Py]).

    Conventions.  A Python [str] is a [string] holding its UTF-8 bytes (the
    separators the code splits on are ASCII, and [urllib.parse.quote] works on
    the UTF-8 bytes).  A Python [int] is a [Z].  A call that may raise returns
    a [result].  A [dict] whose iteration order is observed is an association
    list in insertion order. *)

From Stdlib Require Import String Ascii List ZArith Lia Bool QArith DecimalString.
Import ListNotations.
Close Scope Q_scope.
Open Scope list_scope.
Open Scope string_scope.

(* ================================================================== *)
(** ** Python built-ins used by the sources *)
(* ================================================================== *)

Module Py.

(** Exceptions that the modelled code can raise. *)
Inductive exn : Type :=
| ValueError (msg : string)
| KeyError (key : string)
| IndexError
| ZeroDivisionError.

Inductive result (A : Type) : Type :=
| Ok (a : A)
| Raise (e : exn).
Arguments Ok {A} a.
Arguments Raise {A} e.

Definition bind {A B : Type} (m : result A) (f : A -> result B) : result B :=
  match m with
  | Ok a => f a
  | Raise e => Raise e
  end.

Definition is_ok {A : Type} (m : result A) : bool :=
  match m with Ok _ => true | Raise _ => false end.

(** Truthiness of a string and of a list: empty is false. *)
Definition truthy (s : string) : bool :=
  match s with "" => false | String _ _ => true end.

(** [x or []] for an optional list. *)
Definition or_empty {A : Type} (x : option (list A)) : list A :=
  match x with
  | Some (a :: l) => a :: l
  | _ => []
  end.

(** [str(i)] for an [int]. *)
Definition str_of_int (z : Z) : string := NilZero.string_of_int (Z.to_int z).

(** [sep.join(ls)]. *)
Definition str_join (sep : string) (ls : list string) : string :=
  String.concat sep ls.

(** [s.split(sep)] for a one-character separator: the pieces between the
    occurrences of [sep], always at least one piece. *)
Fixpoint str_split (sep : ascii) (s : string) : list string :=
  match s with
  | "" => [""]
  | String c s' =>
      if (c =? sep)%char then "" :: str_split sep s'
      else match str_split sep s' with
           | h :: t => String c h :: t
           | [] => [String c ""]
           end
  end.

(** [s.replace(old, new)] for a non-empty [old]: a left-to-right scan that
    substitutes [new] at every occurrence of [old] and resumes after it, so
    the occurrences replaced do not overlap.  [skip] counts the characters of
    an occurrence just replaced that are still to be passed over. *)
Fixpoint str_replace_from (old new s : string) (skip : nat) : string :=
  match s with
  | "" => ""
  | String c s' =>
      match skip with
      | S k => str_replace_from old new s' k
      | O =>
          if prefix old s
          then new ++ str_replace_from old new s' (String.length old - 1)
          else String c (str_replace_from old new s' 0)
      end
  end.

(** With an empty [old], Python inserts [new] before every character and at
    the end. *)
Fixpoint str_intersperse (new s : string) : string :=
  match s with
  | "" => new
  | String c s' => new ++ String c (str_intersperse new s')
  end.

Definition str_replace (old new s : string) : string :=
  match old with
  | "" => str_intersperse new s
  | String _ _ => str_replace_from old new s 0
  end.

(** *** Insertion-ordered dictionaries *)

Definition dict (V : Type) : Type := list (string * V).

Fixpoint dict_get {V : Type} (d : dict V) (k : string) : option V :=
  match d with
  | [] => None
  | (k', v) :: d' => if (k' =? k)%string then Some v else dict_get d' k
  end.

Definition dict_mem {V : Type} (k : string) (d : dict V) : bool :=
  match dict_get d k with Some _ => true | None => false end.

(** [d[k]]: raises [KeyError] on a missing key. *)
Definition dict_item {V : Type} (d : dict V) (k : string) : result V :=
  match dict_get d k with
  | Some v => Ok v
  | None => Raise (KeyError k)
  end.

(** [d[k] = v]: an existing key keeps its position, a new key goes last. *)
Fixpoint dict_set {V : Type} (d : dict V) (k : string) (v : V) : dict V :=
  match d with
  | [] => [(k, v)]
  | (k', v') :: d' =>
      if (k' =? k)%string then (k', v) :: d' else (k', v') :: dict_set d' k v
  end.

(** [l[0]]. *)
Definition list_item0 {A : Type} (l : list A) : result A :=
  match l with
  | [] => Raise IndexError
  | a :: _ => Ok a
  end.

(** *** [urllib.parse.quote] with its default [safe='/'] *)

Definition ascii_in (lo hi c : ascii) : bool :=
  ((nat_of_ascii lo <=? nat_of_ascii c) && (nat_of_ascii c <=? nat_of_ascii hi))%nat.

(** The characters [quote] never encodes: letters, digits and [_.-~],
    and the default safe character [/]. *)
Definition quote_safe (c : ascii) : bool :=
  ascii_in "A" "Z" c || ascii_in "a" "z" c || ascii_in "0" "9" c
  || (c =? "_")%char || (c =? ".")%char || (c =? "-")%char || (c =? "~")%char
  || (c =? "/")%char.

Definition hex_digit (n : nat) : ascii :=
  match n with
  | 0 => "0" | 1 => "1" | 2 => "2" | 3 => "3" | 4 => "4" | 5 => "5"
  | 6 => "6" | 7 => "7" | 8 => "8" | 9 => "9" | 10 => "A" | 11 => "B"
  | 12 => "C" | 13 => "D" | 14 => "E" | _ => "F"
  end%char%nat.

(** One byte as [%XX], upper-case hexadecimal. *)
Definition percent_byte (c : ascii) : string :=
  let n := nat_of_ascii c in
  String "%" (String (hex_digit (n / 16)) (String (hex_digit (n mod 16)) "")).

Fixpoint quote (s : string) : string :=
  match s with
  | "" => ""
  | String c s' =>
      if quote_safe c then String c (quote s') else percent_byte c ++ quote s'
  end.

(** *** The fragment of [re] that [BLOB_REGEX] is written in

    A backtracking matcher in continuation-passing style: each construct
    tries its alternatives in the order Python's engine does (a greedy star
    the longest first, a lazy plus the shortest first) and the first
    alternative whose continuation succeeds wins.  Repetition is over one
    character class, which is all the pattern needs. *)

Inductive regex : Type :=
| Lit (s : string)                 (* a literal string *)
| StarGreedy (p : ascii -> bool)   (* [c*]  for a one-character class c *)
| PlusLazy (p : ascii -> bool)     (* [c+?] for a one-character class c *)
| Seq (r1 r2 : regex)
| Group (r : regex).               (* a capturing group *)

(** [.]: any character but a newline. *)
Definition dot (c : ascii) : bool := negb (c =? "010")%char.
(** [[^/]]: any character but a slash (a newline included). *)
Definition not_slash (c : ascii) : bool := negb (c =? "/")%char.

(** [strip_prefix p s] is the rest of [s] after its prefix [p]. *)
Fixpoint strip_prefix (p s : string) : option string :=
  match p with
  | "" => Some s
  | String a p' =>
      match s with
      | "" => None
      | String b s' => if (a =? b)%char then strip_prefix p' s' else None
      end
  end.

(** The first [n] characters of [s]. *)
Fixpoint str_take (n : nat) (s : string) : string :=
  match n, s with
  | S n', String c s' => String c (str_take n' s')
  | _, _ => ""
  end.

Section Matcher.
Context {A : Type}.

Definition cont : Type := string -> list string -> option A.

Fixpoint star_greedy (p : ascii -> bool) (s : string) (caps : list string)
    (k : cont) : option A :=
  match s with
  | String c s' =>
      if p c then
        match star_greedy p s' caps k with
        | Some x => Some x
        | None => k s caps
        end
      else k s caps
  | "" => k s caps
  end.

(** After at least one character of the class has been taken: stop as soon
    as the continuation accepts, else take one more. *)
Fixpoint plus_lazy_more (p : ascii -> bool) (s : string) (caps : list string)
    (k : cont) : option A :=
  match k s caps with
  | Some x => Some x
  | None =>
      match s with
      | String c s' => if p c then plus_lazy_more p s' caps k else None
      | "" => None
      end
  end.

Fixpoint rmatch (r : regex) (s : string) (caps : list string) (k : cont)
    : option A :=
  match r with
  | Lit l =>
      match strip_prefix l s with
      | Some s' => k s' caps
      | None => None
      end
  | StarGreedy p => star_greedy p s caps k
  | PlusLazy p =>
      match s with
      | String c s' => if p c then plus_lazy_more p s' caps k else None
      | "" => None
      end
  | Seq r1 r2 => rmatch r1 s caps (fun s' caps' => rmatch r2 s' caps' k)
  | Group r1 =>
      rmatch r1 s caps
        (fun s' caps' =>
           k s' ((caps' ++ [str_take (String.length s - String.length s') s])%list))
  end.
End Matcher.

(** [re.match(r, s)]: anchored at the start of [s], free at its end; the
    result is the list of captured groups. *)
Definition re_match (r : regex) (s : string) : option (list string) :=
  rmatch r s [] (fun _ caps => Some caps).

End Py.

(* ================================================================== *)
(** ** pccommon/pccommon/render.py *)
(* ================================================================== *)

Module render.
Import Py.

(** The values that occur in a [render_params] dictionary ([Dict[str, Any]]
    in the source): strings, integers and lists of integers. *)
Inductive param_value : Type :=
| PStr (s : string)
| PInt (z : Z)
| PList (l : list Z).

Record DefaultRenderConfig : Type := {
  render_params : dict param_value;
  minzoom : Z;
  assets : option (list string);
  maxzoom : option Z;
  create_links : bool;
  has_mosaic : bool;
  mosaic_preview_zoom : option Z;
  mosaic_preview_coords : option (list Q);
  requires_token : bool;
  hidden : bool
}.

(** Modelled from the spec: [pccommon.utils.get_param_str], which
    [get_render_params] calls and which is not among the sources.  Spec 4.2:
    each render-param entry is serialized as [key=value], the entries joined
    by [&] in the insertion order of the mapping; numeric lists serialize as
    comma-joined values. *)
Definition param_value_str (v : param_value) : string :=
  match v with
  | PStr s => s
  | PInt z => str_of_int z
  | PList l => str_join "," (map str_of_int l)
  end.

Definition get_param_str (params : dict param_value) : string :=
  str_join "&" (map (fun kv => fst kv ++ "=" ++ param_value_str (snd kv)) params).

Section Methods.
(** The serializer of render parameters that [get_render_params] calls. *)
Variable param_str : dict param_value -> string.

Definition get_assets_params (self : DefaultRenderConfig) : string :=
  let assets := or_empty self.(assets) in
  let keys := repeat "&assets=" (List.length assets) in
  let params := map (fun item => str_join "" [fst item; snd item])
                    (combine keys assets) in
  str_join "" params.

Definition get_render_params (self : DefaultRenderConfig) : string :=
  "&" ++ param_str self.(render_params).

Definition get_full_render_qs (self : DefaultRenderConfig)
    (collection : string) (item : option string) : string :=
  let collection_part :=
    if truthy collection then "collection=" ++ collection else "" in
  let item_part :=
    match item with
    | Some i => if truthy i then "&item=" ++ i else ""
    | None => ""
    end in
  let asset_part := get_assets_params self in
  let render_part := get_render_params self in
  str_join "" [collection_part; item_part; asset_part; render_part].
End Methods.

Definition should_add_collection_links (self : DefaultRenderConfig) : bool :=
  self.(has_mosaic) && self.(create_links) && negb self.(hidden).

Definition should_add_item_links (self : DefaultRenderConfig) : bool :=
  self.(create_links) && negb self.(hidden).

(** Keyword arguments of the dataclass constructor, over its defaults. *)
Inductive kwarg : Type :=
| assets_ (l : list string)
| maxzoom_ (z : Z)
| create_links_ (b : bool)
| has_mosaic_ (b : bool)
| mosaic_preview_zoom_ (z : Z)
| mosaic_preview_coords_ (l : list Q)
| requires_token_ (b : bool)
| hidden_ (b : bool).

Definition set_kwarg (c : DefaultRenderConfig) (kw : kwarg) : DefaultRenderConfig :=
  let 'Build_DefaultRenderConfig rp mn a mx cl hm pz pc rt hd := c in
  match kw with
  | assets_ l => Build_DefaultRenderConfig rp mn (Some l) mx cl hm pz pc rt hd
  | maxzoom_ z => Build_DefaultRenderConfig rp mn a (Some z) cl hm pz pc rt hd
  | create_links_ b => Build_DefaultRenderConfig rp mn a mx b hm pz pc rt hd
  | has_mosaic_ b => Build_DefaultRenderConfig rp mn a mx cl b pz pc rt hd
  | mosaic_preview_zoom_ z => Build_DefaultRenderConfig rp mn a mx cl hm (Some z) pc rt hd
  | mosaic_preview_coords_ l => Build_DefaultRenderConfig rp mn a mx cl hm pz (Some l) rt hd
  | requires_token_ b => Build_DefaultRenderConfig rp mn a mx cl hm pz pc b hd
  | hidden_ b => Build_DefaultRenderConfig rp mn a mx cl hm pz pc rt b
  end.

(** [DefaultRenderConfig(render_params=..., minzoom=..., **kwargs)]. *)
Definition new_config (rp : dict param_value) (mn : Z) (kws : list kwarg)
    : DefaultRenderConfig :=
  fold_left set_kwarg kws
    {| render_params := rp; minzoom := mn; assets := None; maxzoom := Some 18%Z;
       create_links := true; has_mosaic := false; mosaic_preview_zoom := None;
       mosaic_preview_coords := None; requires_token := false; hidden := false |}.

(** The process-wide table, in the order of the source. *)
Definition COLLECTION_RENDER_CONFIG : dict DefaultRenderConfig := [
  ("3dep-seamless",
   new_config [("colormap_name", PStr "terrain"); ("rescale", PList [-1000; 4000]%Z)] 8
     [assets_ ["data"]; requires_token_ true; mosaic_preview_zoom_ 8;
      mosaic_preview_coords_ [47.1113; -120.8578]%Q]);
  ("alos-dem",
   new_config [("colormap_name", PStr "terrain"); ("rescale", PList [-1000; 4000]%Z)] 8
     [assets_ ["data"]; mosaic_preview_zoom_ 8;
      mosaic_preview_coords_ [35.6837; 138.4281]%Q; requires_token_ true]);
  ("aster-l1t",
   new_config [("asset_bidx", PStr "VNIR|2,3,1"); ("nodata", PInt 0)] 9
     [assets_ ["VNIR"]; mosaic_preview_zoom_ 9;
      mosaic_preview_coords_ [37.2141; -104.2947]%Q]);
  ("chloris-biomass",
   new_config [("colormap_name", PStr "chloris-biomass"); ("rescale", PList [1; 750000]%Z)] 2
     [assets_ ["data"]; has_mosaic_ false; mosaic_preview_zoom_ 2;
      mosaic_preview_coords_ [30.0572; 80.1735]%Q; requires_token_ true]);
  ("cop-dem-glo-30",
   new_config [("colormap_name", PStr "terrain"); ("rescale", PList [-1000; 4000]%Z)] 8
     [assets_ ["data"]; mosaic_preview_zoom_ 8;
      mosaic_preview_coords_ [30.0572; 80.1735]%Q; requires_token_ true]);
  ("cop-dem-glo-90",
   new_config [("colormap_name", PStr "terrain"); ("rescale", PList [-1000; 4000]%Z)] 8
     [assets_ ["data"]; mosaic_preview_zoom_ 8;
      mosaic_preview_coords_ [46.8776; 12.1444]%Q; requires_token_ true]);
  ("gap",
   new_config [("tile_format", PStr "png"); ("colormap_name", PStr "gap-lulc")] 5
     [assets_ ["data"]; mosaic_preview_zoom_ 7;
      mosaic_preview_coords_ [26.7409; -80.9714]%Q; requires_token_ false]);
  ("gnatsgo-rasters",
   new_config [("colormap_name", PStr "cividis"); ("rescale", PList [0; 600]%Z)] 4
     [assets_ ["aws0_100"]; mosaic_preview_zoom_ 6;
      mosaic_preview_coords_ [44.1454; -112.6404]%Q; requires_token_ true]);
  ("goes-mcmip",
   new_config [("colormap_name", PStr "gap-lulc")] 6
     [create_links_ true; assets_ ["data"]; mosaic_preview_zoom_ 13;
      mosaic_preview_coords_ [39.95340; -75.16333]%Q; requires_token_ true]);
  ("goes-cmi",
   new_config
     [("expression",
       PStr ("C02_2km_wm," ++ "0.45*C02_2km_wm+0.1*C03_2km_wm+0.45*C01_2km_wm,"
             ++ "C01_2km_wm"));
      ("nodata", PInt (-1));
      ("rescale", PList [1; 1000]%Z);
      ("color_formula", PStr "Gamma RGB 2.5 Saturation 1.4 Sigmoidal RGB 2 0.7");
      ("resampling", PStr "bilinear")] 2
     [create_links_ true; has_mosaic_ true; mosaic_preview_zoom_ 4;
      mosaic_preview_coords_ [33.4872; -114.4842]%Q; requires_token_ true]);
  ("hgb",
   new_config [("colormap_name", PStr "greens"); ("nodata", PInt 0);
               ("rescale", PList [0; 255]%Z)] 2
     [assets_ ["aboveground"]; mosaic_preview_zoom_ 9;
      mosaic_preview_coords_ [-7.641129; 39.162521]%Q]);
  ("hrea",
   new_config [("colormap_name", PStr "magma"); ("rescale", PList [1; 200]%Z)] 3
     [assets_ ["estimated-brightness"]; mosaic_preview_zoom_ 3;
      mosaic_preview_coords_ [11.8280; 20.6367]%Q]);
  ("io-lulc",
   new_config [("colormap_name", PStr "io-lulc")] 4
     [assets_ ["data"]; mosaic_preview_zoom_ 4;
      mosaic_preview_coords_ [-0.8749; 109.8456]%Q]);
  ("io-lulc-9-class",
   new_config [("colormap_name", PStr "io-lulc-9-class")] 4
     [assets_ ["data"]; mosaic_preview_zoom_ 4;
      mosaic_preview_coords_ [-0.8749; 109.8456]%Q]);
  ("jrc-gsw",
   new_config [("colormap_name", PStr "jrc-occurrence"); ("nodata", PInt 0)] 4
     [assets_ ["occurrence"]; mosaic_preview_zoom_ 10;
      mosaic_preview_coords_ [24.21647; 91.015209]%Q]);
  ("landsat-8-c2-l2",
   new_config
     [("color_formula", PStr "gamma RGB 2.7, saturation 1.5, sigmoidal RGB 15 0.55")] 8
     [assets_ ["SR_B4"; "SR_B3"; "SR_B2"]; mosaic_preview_zoom_ 11;
      mosaic_preview_coords_ [37.4069; 118.8188]%Q; requires_token_ true]);
  ("mobi",
   new_config [("colormap_name", PStr "magma"); ("nodata", PInt 128);
               ("rescale", PStr "0,1")] 3
     [create_links_ false; assets_ ["SpeciesRichness_All"]; requires_token_ true;
      mosaic_preview_zoom_ 4; mosaic_preview_coords_ [37.3052; -85.8457]%Q]);
  ("mtbs",
   new_config [("colormap_name", PStr "mtbs-severity")] 3
     [create_links_ false; assets_ ["burn-severity"]; mosaic_preview_zoom_ 9;
      mosaic_preview_coords_ [39.2234; -122.6932]%Q]);
  ("naip",
   new_config [("asset_bidx", PStr "image|1,2,3")] 11
     [assets_ ["image"]; mosaic_preview_zoom_ 13;
      mosaic_preview_coords_ [36.0891; -111.8577]%Q]);
  ("nasadem",
   new_config [("colormap_name", PStr "terrain"); ("rescale", PList [-100; 4000]%Z)] 7
     [assets_ ["elevation"]; mosaic_preview_zoom_ 7;
      mosaic_preview_coords_ [-10.7270; -74.7620]%Q; requires_token_ false]);
  ("nrcan-landcover",
   new_config [("colormap_name", PStr "nrcan-lulc")] 4
     [assets_ ["landcover"]; mosaic_preview_zoom_ 7;
      mosaic_preview_coords_ [51.3913; -124.8087]%Q; requires_token_ true]);
  ("sentinel-2-l2a",
   new_config [("asset_bidx", PStr "visual|1,2,3"); ("nodata", PInt 0)] 9
     [assets_ ["visual"]; mosaic_preview_zoom_ 9;
      mosaic_preview_coords_ [-16.4940; 124.0274]%Q; requires_token_ true])
].

(** A [set] of strings, with [in]. *)
Definition STORAGE_ACCOUNTS_WITH_CDNS : list string := ["naipeuwest"].

Definition set_mem (x : string) (s : list string) : bool :=
  existsb (String.eqb x) s.

(** [r".*/([^/]+?)\.blob\.core\.windows\.net.*"] *)
Definition BLOB_REGEX : regex :=
  Seq (StarGreedy dot)
 (Seq (Lit "/")
 (Seq (Group (PlusLazy not_slash))
 (Seq (Lit ".blob.core.windows.net")
      (StarGreedy dot)))).

(** [BlobCDN.transform_if_available]. *)
Definition transform_if_available (asset_href : string) : string :=
  match re_match BLOB_REGEX asset_href with
  | Some m =>
      match m with
      | group1 :: _ =>
          if set_mem group1 STORAGE_ACCOUNTS_WITH_CDNS
          then str_replace "blob.core.windows" "azureedge" asset_href
          else asset_href
      | [] => asset_href
      end
  | None => asset_href
  end.

End render.

(* ================================================================== *)
(** ** pcfuncs/animation/models.py *)
(* ================================================================== *)

Module models.
Import Py.

(** [k, v = l]: unpacking a list into exactly two names. *)
Definition unpack2 (l : list string) : result (string * string) :=
  match l with
  | [k; v] => Ok (k, v)
  | [] | [_] =>
      Raise (ValueError ("not enough values to unpack (expected 2, got "
                         ++ str_of_int (Z.of_nat (List.length l)) ++ ")"))
  | _ => Raise (ValueError "too many values to unpack (expected 2)")
  end.

(** The body of the [for] loop of [_get_render_options], over the pieces
    still to be read and the dictionary built so far. *)
Fixpoint render_options_loop (ps : list string) (res : dict (list string))
    : result (dict (list string)) :=
  match ps with
  | [] => Ok res
  | p :: ps' =>
      bind (unpack2 (str_split "=" p)) (fun kv =>
        let k := fst kv in
        let v := snd kv in
        let res1 := if negb (dict_mem k res) then dict_set res k [] else res in
        bind (dict_item res1 k) (fun vs =>
          render_options_loop ps' (dict_set res1 k (vs ++ [v])%list)))
  end.

Definition _get_render_options (render_params : string)
    : result (dict (list string)) :=
  render_options_loop (str_split "&" render_params) [].

(** [dateutil.relativedelta.relativedelta], by the keyword it is built with. *)
Inductive relativedelta : Type :=
| minutes_ (n : Z)
| hours_ (n : Z)
| days_ (n : Z)
| weeks_ (n : Z)
| months_ (n : Z)
| years_ (n : Z).

Definition _deltas : dict (Z -> relativedelta) := [
  ("mins", fun step => minutes_ step);
  ("hours", fun step => hours_ step);
  ("days", fun step => days_ step);
  ("weeks", fun step => weeks_ step);
  ("months", fun step => months_ step);
  ("years", fun step => years_ step)
].

(** [d.keys()]. *)
Definition dict_keys {V : Type} (d : dict V) : list string := map fst d.

Section AnimationRequest.
(** [MAX_FRAMES] comes from [.constants], which is not among the sources. *)
Variable MAX_FRAMES : Z.
(** Field types this module never computes with. *)
Variables float datetime json : Type.

Record AnimationRequest : Type := {
  bbox : list float;
  zoom : Z;
  cql : json;
  render_params : string;
  start : datetime;
  duration : Z;
  step : Z;
  unit : string;
  frames : Z;
  show_branding : bool;
  show_progressbar : bool
}.

Definition _validate_render_params (v : string) : result string :=
  match _get_render_options v with
  | Raise _ => Raise (ValueError "Invalid render_params")
  | Ok render_options =>
      if negb (dict_mem "collection" render_options)
      then Raise (ValueError "Missing collection in render_params")
      else
        bind (dict_item render_options "collection") (fun c =>
          if negb (List.length c =? 1)%nat
          then Raise (ValueError "Multiple collections in render_params")
          else Ok v)
  end.

Definition _validate_unit (v : string) : result string :=
  if negb (dict_mem v _deltas)
  then Raise (ValueError ("Invalid unit. Must be one of: "
                          ++ str_join ", " (dict_keys _deltas)))
  else Ok v.

(** What pydantic reports for one field: its name and the message of the
    [ValueError] its validator raised (the validators raise nothing else). *)
Definition field_errors (field : string) (r : result string)
    : list (string * string) :=
  match r with
  | Ok _ => []
  | Raise (ValueError msg) => [(field, msg)]
  | Raise _ => [(field, "")]
  end.

(** Construction either yields the model or a [ValidationError] carrying the
    errors of every field that failed. *)
Inductive construction : Type :=
| Accepted (r : AnimationRequest)
| ValidationError (errors : list (string * string)).

(** Constructing an [AnimationRequest] from data of the declared field types: the
    validators run in field order and their errors are collected. *)
Definition new_AnimationRequest (data : AnimationRequest) : construction :=
  let errors :=
    (field_errors "render_params" (_validate_render_params data.(render_params))
     ++ field_errors "unit" (_validate_unit data.(unit)))%list in
  match errors with
  | [] => Accepted data
  | _ :: _ => ValidationError errors
  end.

Definition get_collection (self : AnimationRequest) : result string :=
  bind (_get_render_options self.(render_params)) (fun render_options =>
    bind (dict_item render_options "collection") list_item0).

Definition get_encoded_render_params (self : AnimationRequest) : result string :=
  bind (_get_render_options self.(render_params)) (fun render_options =>
    let encoded_options :=
      flat_map (fun kv => map (fun v => fst kv ++ "=" ++ quote v) (snd kv))
               render_options in
    Ok (str_join "&" (encoded_options ++ ["tile_scale=2"])%list)).

Definition get_valid_frames (self : AnimationRequest) : Z :=
  Z.min self.(frames) MAX_FRAMES.

Definition get_relative_delta (self : AnimationRequest) : result relativedelta :=
  bind (dict_item _deltas self.(unit)) (fun f => Ok (f self.(step))).

End AnimationRequest.

Arguments Build_AnimationRequest {float datetime json}.
Arguments bbox {float datetime json} _.
Arguments zoom {float datetime json} _.
Arguments cql {float datetime json} _.
Arguments render_params {float datetime json} _.
Arguments start {float datetime json} _.
Arguments duration {float datetime json} _.
Arguments step {float datetime json} _.
Arguments unit {float datetime json} _.
Arguments frames {float datetime json} _.
Arguments show_branding {float datetime json} _.
Arguments show_progressbar {float datetime json} _.
Arguments Accepted {float datetime json} r.
Arguments ValidationError {float datetime json} errors.
Arguments new_AnimationRequest {float datetime json} data.
Arguments get_collection {float datetime json} self.
Arguments get_encoded_render_params {float datetime json} self.
Arguments get_valid_frames MAX_FRAMES {float datetime json} self.
Arguments get_relative_delta {float datetime json} self.

End models.

(* ================================================================== *)
(** ** pcfuncs/funclib/stamps/progress_bar.py *)
(* ================================================================== *)

Module progress_bar.
Import Py.

Definition BAR_HEIGHT : Z := 3.

(** The frame a stamp is created for ([.stamp], not among the sources,
    declares it); the stamp reads its two counters. *)
Record TileFrame : Type := {
  frame_number : Z;
  frame_count : Z
}.

Section Pillow.
(** Python's floats and Pillow's images are taken as given: the stamp is
    modelled over any implementation of the operations it calls. *)
Variable float : Type.
Variable float_of_int : Z -> float.
(** The correctly rounded quotient of two integers, for a non-zero divisor. *)
Variable float_div : Z -> Z -> float.
Variable float_mul : float -> float -> float.
Variable float_sub : float -> float -> float.
(** [int(x)], which raises on an infinity or a NaN. *)
Variable int_of_float : float -> result Z.
Variable BG_PAD : float.   (* the literal [0.2] *)

Variables PILImage color : Type.
Variable width height : PILImage -> Z.
Variable TRANSPARENT : color.   (* from [.stamp] *)
Variable rgba : Z -> Z -> Z -> Z -> color.
Variable Image_new : string -> Z * Z -> color -> PILImage.
(** A coordinate handed to Pillow is an [int] or a [float]. *)
Inductive coord : Type :=
| CInt (z : Z)
| CFloat (x : float).
(** [ImageDraw.Draw(im).rectangle(xy, fill=...)], as the image it leaves. *)
Variable draw_rectangle :
  PILImage -> (coord * coord) * (coord * coord) -> color -> PILImage.
Variable alpha_composite : PILImage -> PILImage -> result PILImage.

(** [a / b] on two [int]s: true division, which raises on a zero divisor
    before any floating-point work. *)
Definition int_truediv (a b : Z) : result float :=
  if (b =? 0)%Z then Raise ZeroDivisionError else Ok (float_div a b).

(** The expression bound to [bar_width]. *)
Definition bar_width (image : PILImage) (tile_frame : TileFrame) : result Z :=
  bind (int_truediv tile_frame.(frame_number) (tile_frame.(frame_count) - 1)%Z)
    (fun ratio => int_of_float (float_mul (float_of_int (width image)) ratio)).

(** [ProgressBarStamp.apply], with [self.frame] as an argument. *)
Definition apply (frame : TileFrame) (image : PILImage) : result PILImage :=
  let tile_frame := frame in
  let bar_frame := Image_new "RGBA" (width image, height image) TRANSPARENT in
  bind (bar_width image tile_frame) (fun bar_width =>
    let x0 := 0%Z in
    let y0 := (height image - BAR_HEIGHT)%Z in
    let x1 := bar_width in
    let y1 := height image in
    let bar_frame :=
      draw_rectangle bar_frame
        ((CInt x0, CFloat (float_sub (float_of_int y0) BG_PAD)),
         (CInt x1, CFloat (float_sub (float_of_int y1) BG_PAD)))
        (rgba 255 255 255 255) in
    let bar_frame :=
      draw_rectangle bar_frame ((CInt x0, CInt y0), (CInt x1, CInt y1))
        (rgba 0 120 212 255) in
    alpha_composite image bar_frame).

End Pillow.

End progress_bar.

(* ================================================================== *)
(** ** pctiler/pctiler/endpoints/item.py *)
(* ================================================================== *)

Module item.
Import Py render.

(** The context handed to the [item_preview.html] template. *)
Record preview_context (Request : Type) : Type := {
  request : Request;
  tileJson : string;
  collectionId : string;
  itemId : string;
  itemUrl : string
}.
Arguments Build_preview_context {Request}.

Inductive Response (Request : Type) : Type :=
| PlainResponse (status_code : Z) (content : string)
| TemplateResponse (name : string) (context : preview_context Request).
Arguments PlainResponse {Request}.
Arguments TemplateResponse {Request}.

(** A template response is built with Starlette's default status, 200. *)
Definition status_code {Request : Type} (r : Response Request) : Z :=
  match r with
  | PlainResponse c _ => c
  | TemplateResponse _ _ => 200%Z
  end.

Section Endpoint.
(** The web framework and the settings are taken as given. *)
Variable Request : Type.
Variable url_for : Request -> string -> string.   (* pc_tile_factory.url_for *)
Variable stac_api_href : string.                  (* get_settings().stac_api_href *)
Variable urljoin : string -> string -> string.
(** The serializer of render parameters, [pccommon.utils.get_param_str]. *)
Variable param_str : dict param_value -> string.

Definition map (request : Request) (collection item : string)
    : Response Request :=
  match dict_get COLLECTION_RENDER_CONFIG collection with
  | None =>
      PlainResponse 404 ("No item map available for collection " ++ collection)
  | Some render_config =>
      let qs := get_full_render_qs param_str render_config collection (Some item) in
      let tilejson_url := url_for request "tilejson" in
      let tilejson_url := tilejson_url ++ "?" ++ qs in
      let item_url :=
        urljoin stac_api_href
                ("collections/" ++ collection ++ "/items/" ++ item) in
      TemplateResponse "item_preview.html"
        {| request := request; tileJson := tilejson_url;
           collectionId := collection; itemId := item; itemUrl := item_url |}
  end.

End Endpoint.

End item.

(* ================================================================== *)
(** ** The specification's reading of the operations *)
(* ================================================================== *)

Module RenderSpec.
Import Py render.

(** The query string as the specification composes it: [collection=...],
    then [&item=...] when an item is given, then one [&assets=...] per asset,
    then [&] and the render parameters as [key=value] pairs joined by [&]. *)
Definition item_segment (item : option string) : string :=
  match item with
  | Some i => "&item=" ++ i
  | None => ""
  end.

Definition assets_segments (cfg : DefaultRenderConfig) : string :=
  String.concat ""
    (List.map (fun a => "&assets=" ++ a)
              (match cfg.(assets) with Some l => l | None => [] end)).

Definition render_pairs (cfg : DefaultRenderConfig) : list string :=
  List.map (fun kv => fst kv ++ "=" ++ param_value_str (snd kv))
           cfg.(render_params).

Definition full_render_qs (cfg : DefaultRenderConfig) (collection : string)
    (item : option string) : string :=
  "collection=" ++ collection ++ item_segment item ++ assets_segments cfg
  ++ "&" ++ String.concat "&" (render_pairs cfg).

(** The entry of [alos-dem] in the table. *)
Definition alos_dem : DefaultRenderConfig :=
  new_config
    [("colormap_name", PStr "terrain"); ("rescale", PList [-1000; 4000]%Z)] 8
    [assets_ ["data"]; mosaic_preview_zoom_ 8;
     mosaic_preview_coords_ [35.6837; 138.4281]%Q; requires_token_ true].

(** Every character of [s] is in the class [p]. *)
Fixpoint all_chars (p : ascii -> bool) (s : string) : bool :=
  match s with
  | "" => true
  | String c s' => p c && all_chars p s'
  end.

(** The shape [BLOB_REGEX] looks for: an account segment, non-empty and free
    of slashes, that stands right after a [/] and right before
    [.blob.core.windows.net]. *)
Definition slash_before_account (url : string) : Prop :=
  exists pre acct rest,
    url = pre ++ "/" ++ acct ++ ".blob.core.windows.net" ++ rest
    /\ acct <> "" /\ all_chars not_slash acct = true.

(** A decision procedure for that shape.  [account_here s seen] looks for the
    end of an account segment in [s]; [seen] tells whether a character of the
    segment has been read. *)
Fixpoint account_here (s : string) (seen : bool) : bool :=
  (seen && prefix ".blob.core.windows.net" s)
  || match s with
     | "" => false
     | String c s' => not_slash c && account_here s' true
     end.

Fixpoint has_slash_account (url : string) : bool :=
  match url with
  | "" => false
  | String c s' => ((c =? "/")%char && account_here s' false) || has_slash_account s'
  end.

(** The number of places of [s] at which [old] occurs. *)
Fixpoint count_occurrences (old s : string) : nat :=
  match s with
  | "" => 0
  | String c s' => (if prefix old s then 1 else 0) + count_occurrences old s'
  end.

(** The rewriting of the specification: the host alone changes. *)
Definition host_rewrite (pre acct rest : string) : string :=
  pre ++ "/" ++ acct ++ ".azureedge.net" ++ rest.

(** Three URLs: the example of the specification, one whose path holds the
    substring too, and one without a scheme. *)
Definition naip_url : string :=
  "https://naipeuwest.blob.core.windows.net/x/y.tif".

Definition naip_url_path : string :=
  "https://naipeuwest.blob.core.windows.net/blob.core.windows/y.tif".

Definition naip_url_schemeless : string :=
  "naipeuwest.blob.core.windows.net/x/y.tif".

End RenderSpec.


Module RequestSpec.
Import Py.

(** The rules of the specification for [render_params], read off the string
    itself: its [&]-separated segments, the number of [=] in a segment, and
    for a segment its key (the text before the first [=]) and its value (the
    text after it). *)
Definition segments (render_params : string) : list string :=
  str_split "&" render_params.

Fixpoint count_char (c : ascii) (s : string) : nat :=
  match s with
  | "" => 0
  | String a s' => (if (a =? c)%char then 1 else 0) + count_char c s'
  end.

Fixpoint key_of (seg : string) : string :=
  match seg with
  | "" => ""
  | String a s' => if (a =? "=")%char then "" else String a (key_of s')
  end.

Fixpoint value_of (seg : string) : string :=
  match seg with
  | "" => ""
  | String a s' => if (a =? "=")%char then s' else value_of s'
  end.

Definition well_formed (seg : string) : Prop := count_char "=" seg = 1.

(** Some segment does not have exactly one [=]. *)
Definition malformed (render_params : string) : Prop :=
  Exists (fun seg => ~ well_formed seg) (segments render_params).

Definition pairs_of (segs : list string) : list (string * string) :=
  List.map (fun seg => (key_of seg, value_of seg)) segs.

(** The values given for a key, in the order of the string. *)
Definition values_of (k : string) (pairs : list (string * string)) : list string :=
  List.map snd (filter (fun p => (fst p =? k)%string) pairs).

Definition collection_values (render_params : string) : list string :=
  values_of "collection" (pairs_of (segments render_params)).

Definition collection_missing (render_params : string) : Prop :=
  collection_values render_params = [].

Definition collection_multiple (render_params : string) : Prop :=
  (1 < List.length (collection_values render_params))%nat.

(** The six delta units. *)
Definition delta_units : list string :=
  ["mins"; "hours"; "days"; "weeks"; "months"; "years"].

Definition unit_invalid (unit : string) : Prop := ~ In unit delta_units.

(** The keys of a list of pairs, each once, in the order first seen. *)
Fixpoint first_seen (l : list string) : list string :=
  match l with
  | [] => []
  | x :: l' => x :: filter (fun y => negb (y =? x)%string) (first_seen l')
  end.

(** The mapping of the specification: every key once, in first-seen order,
    with its values in the order of the string. *)
Definition grouped (pairs : list (string * string)) : dict (list string) :=
  List.map (fun k => (k, values_of k pairs)) (first_seen (List.map fst pairs)).

(** The re-serialization of the specification: one [key=value] pair per
    value, the value percent-encoded, then [tile_scale=2]. *)
Definition encoded_pairs (render_params : string) : list string :=
  flat_map (fun kv => List.map (fun v => fst kv ++ "=" ++ quote v) (snd kv))
           (grouped (pairs_of (segments render_params))).

Definition encoded_render_params (render_params : string) : string :=
  String.concat "&" (encoded_pairs render_params ++ ["tile_scale=2"])%list.

(** The request of the specification's example, with the fields the model
    never reads left trivial. *)
Definition example_request (render_params unit : string) (frames : Z)
    : models.AnimationRequest Datatypes.unit Datatypes.unit Datatypes.unit :=
  {| models.bbox := []; models.zoom := 0; models.cql := tt;
     models.render_params := render_params; models.start := tt;
     models.duration := 0; models.step := 1; models.unit := unit;
     models.frames := frames; models.show_branding := true;
     models.show_progressbar := true |}.

Definition naip_request
    : models.AnimationRequest Datatypes.unit Datatypes.unit Datatypes.unit :=
  example_request "collection=naip&asset=image&asset=visual" "days" 10.

End RequestSpec.

From Stdlib Require Import Permutation.

Module TableSpec.
Import Py render.

(** What every entry of [COLLECTION_RENDER_CONFIG] is checked for: a
    non-empty collection id, a mosaic preview zoom between [minzoom] and
    [maxzoom], preview coordinates that are a latitude and a longitude,
    render parameters that are not empty, and no hidden entry. *)
Definition zoom_in_range (cfg : DefaultRenderConfig) : bool :=
  match cfg.(mosaic_preview_zoom), cfg.(maxzoom) with
  | Some z, Some mx => (cfg.(minzoom) <=? z)%Z && (z <=? mx)%Z
  | _, _ => false
  end.

Definition coords_are_lat_lon (cfg : DefaultRenderConfig) : bool :=
  match cfg.(mosaic_preview_coords) with
  | Some [lat; lon] =>
      Qle_bool (-90) lat && Qle_bool lat 90
      && Qle_bool (-180) lon && Qle_bool lon 180
  | _ => false
  end.

Definition entry_ok (entry : string * DefaultRenderConfig) : bool :=
  truthy (fst entry)
  && zoom_in_range (snd entry)
  && coords_are_lat_lon (snd entry)
  && negb (Nat.eqb (List.length (snd entry).(render_params)) 0)
  && negb (snd entry).(hidden).

End TableSpec.
(* ================================================================== *)
(** ** Properties *)
(* ================================================================== *)

Import Py.

(** *** Strings *)

Lemma append_empty_r (s : string) : s ++ "" = s.
Proof. induction s as [|c s IH]; simpl; [reflexivity | now rewrite IH]. Qed.

Lemma append_assoc (a b c : string) : (a ++ b) ++ c = a ++ b ++ c.
Proof. induction a as [|x a IH]; simpl; [reflexivity | now rewrite IH]. Qed.

Lemma concat_empty_cons (x : string) (xs : list string) :
  String.concat "" (x :: xs) = x ++ String.concat "" xs.
Proof.
  destruct xs as [|y ys]; simpl.
  - now rewrite append_empty_r.
  - reflexivity.
Qed.

(** *** render.py: the full render query string *)

Section RenderQueryString.
Import render.
Variable param_str : dict param_value -> string.

Lemma zip_keys_assets (key : string) (l : list string) :
  List.map (fun item => str_join "" [fst item; snd item])
           (combine (repeat key (List.length l)) l)
  = List.map (fun a => key ++ a) l.
Proof.
  induction l as [|a l IH]; [reflexivity |].
  simpl. f_equal. exact IH.
Qed.

Lemma get_assets_params_segments (cfg : DefaultRenderConfig) :
  get_assets_params cfg = RenderSpec.assets_segments cfg.
Proof.
  unfold get_assets_params, RenderSpec.assets_segments. cbv zeta.
  rewrite zip_keys_assets. unfold str_join.
  destruct (assets cfg) as [[|a l]|]; reflexivity.
Qed.

Lemma get_full_render_qs_parts (cfg : DefaultRenderConfig) (collection : string)
    (item : option string) :
  get_full_render_qs param_str cfg collection item
  = (if truthy collection then "collection=" ++ collection else "")
    ++ (match item with
        | Some i => if truthy i then "&item=" ++ i else ""
        | None => ""
        end)
    ++ RenderSpec.assets_segments cfg ++ "&" ++ param_str cfg.(render_params).
Proof.
  unfold get_full_render_qs, get_render_params. cbv zeta.
  rewrite get_assets_params_segments. unfold str_join.
  rewrite !concat_empty_cons. simpl String.concat.
  now rewrite append_empty_r.
Qed.

End RenderQueryString.

(** C1 (as amended).  For every configuration, every non-empty collection id
    and every item id that is absent or non-empty, [get_full_render_qs]
    returns [collection=<id>], then [&item=<item>] when an item is given,
    then one [&assets=<a>] per asset of the configuration (none when [assets]
    is absent), then [&] and the render parameters as [key=value] pairs
    joined by [&].  An empty collection id contributes no [collection=]
    segment and an empty item id no [&item=] segment.  The entry of
    [alos-dem], with no item, gives the string of the specification. *)
Theorem get_full_render_qs_concat :
  (forall cfg collection item,
      collection <> "" -> item <> Some "" ->
      render.get_full_render_qs render.get_param_str cfg collection item
      = RenderSpec.full_render_qs cfg collection item)
  /\ (forall cfg item,
      render.get_full_render_qs render.get_param_str cfg "" item
      = (match item with Some "" => "" | _ => RenderSpec.item_segment item end)
        ++ RenderSpec.assets_segments cfg ++ "&"
        ++ String.concat "&" (RenderSpec.render_pairs cfg))
  /\ (forall cfg collection,
      collection <> "" ->
      render.get_full_render_qs render.get_param_str cfg collection (Some "")
      = RenderSpec.full_render_qs cfg collection None)
  /\ dict_get render.COLLECTION_RENDER_CONFIG "alos-dem" = Some RenderSpec.alos_dem
  /\ render.get_full_render_qs render.get_param_str RenderSpec.alos_dem "alos-dem" None
     = "collection=alos-dem&assets=data&colormap_name=terrain&rescale=-1000,4000".
Proof.
  split; [|split; [|split; [|split]]].
  - intros cfg collection item Hc Hi.
    rewrite get_full_render_qs_parts. unfold RenderSpec.full_render_qs.
    destruct collection as [|c0 collection]; [congruence |].
    destruct item as [[|i0 item]|]; [congruence | |]; reflexivity.
  - intros cfg item. rewrite get_full_render_qs_parts.
    destruct item as [[|i0 item]|]; reflexivity.
  - intros cfg collection Hc. rewrite get_full_render_qs_parts.
    destruct collection as [|c0 collection]; [congruence |]. reflexivity.
  - reflexivity.
  - reflexivity.
Qed.

Lemma get_full_render_qs_alos_dem :
  render.get_full_render_qs render.get_param_str RenderSpec.alos_dem "alos-dem" None
  = "collection=alos-dem&assets=data&colormap_name=terrain&rescale=-1000,4000".
Proof.
  rewrite (proj1 get_full_render_qs_concat RenderSpec.alos_dem "alos-dem" None);
    [reflexivity | discriminate | discriminate].
Defined.

(** C1 (as stated) fails: with an empty collection id the code emits no
    [collection=] segment, where the claim has the string start with it. *)
Lemma get_full_render_qs_empty_collection :
  render.get_full_render_qs render.get_param_str RenderSpec.alos_dem "" None
  = "&assets=data&colormap_name=terrain&rescale=-1000,4000"
  /\ RenderSpec.full_render_qs RenderSpec.alos_dem "" None
     = "collection=&assets=data&colormap_name=terrain&rescale=-1000,4000"
  /\ render.get_full_render_qs render.get_param_str RenderSpec.alos_dem "" None
     <> RenderSpec.full_render_qs RenderSpec.alos_dem "" None.
Proof.
  split; [reflexivity | split; [reflexivity | discriminate]].
Qed.

(** *** models.py: parsing the render options *)

Section RenderOptions.
Import RequestSpec models.

Lemma str_split_nonempty (c : ascii) (s : string) : str_split c s <> [].
Proof.
  destruct s as [|a s]; simpl; [discriminate |].
  destruct (a =? c)%char; [discriminate |].
  destruct (str_split c s); discriminate.
Qed.

Lemma str_split_length (c : ascii) (s : string) :
  List.length (str_split c s) = S (count_char c s).
Proof.
  induction s as [|a s IH]; simpl; [reflexivity |].
  destruct (a =? c)%char; simpl.
  - now rewrite IH.
  - destruct (str_split c s) as [|h t] eqn:E; simpl in *; [discriminate | exact IH].
Qed.

Lemma str_split_no_sep (c : ascii) (s : string) :
  count_char c s = 0 -> str_split c s = [s].
Proof.
  induction s as [|a s IH]; simpl; [reflexivity |].
  destruct (a =? c)%char; simpl; [discriminate |].
  intros H. now rewrite (IH H).
Qed.

(** A segment with exactly one [=] splits into its key and its value. *)
Lemma str_split_well_formed (seg : string) :
  well_formed seg -> str_split "=" seg = [key_of seg; value_of seg].
Proof.
  unfold well_formed.
  induction seg as [|a s IH]; simpl; [discriminate |].
  destruct (a =? "=")%char; simpl; intros H.
  - injection H as H. now rewrite (str_split_no_sep _ _ H).
  - now rewrite (IH H).
Qed.

Lemma unpack2_well_formed (seg : string) :
  well_formed seg -> unpack2 (str_split "=" seg) = Ok (key_of seg, value_of seg).
Proof. intros H. now rewrite (str_split_well_formed _ H). Qed.

Lemma unpack2_not_well_formed (seg : string) :
  ~ well_formed seg -> exists e, unpack2 (str_split "=" seg) = Raise e.
Proof.
  unfold well_formed. intros H.
  pose proof (str_split_length "=" seg) as L.
  destruct (str_split "=" seg) as [|k [|v [|w l]]]; simpl in *.
  - eexists; reflexivity.
  - eexists; reflexivity.
  - exfalso. apply H. lia.
  - eexists; reflexivity.
Qed.

Lemma well_formed_dec (seg : string) : {well_formed seg} + {~ well_formed seg}.
Proof. unfold well_formed. apply Nat.eq_dec. Qed.

(** Keys in first-seen order. *)

Lemma first_seen_In (k : string) (l : list string) :
  In k (first_seen l) <-> In k l.
Proof.
  induction l as [|x l IH]; simpl; [tauto |].
  rewrite filter_In, IH, negb_true_iff, String.eqb_neq.
  destruct (string_dec x k) as [->|N]; [tauto |].
  split; [tauto |]. intros [E|H]; [tauto |].
  right. split; [exact H | congruence].
Qed.

Lemma first_seen_NoDup (l : list string) : NoDup (first_seen l).
Proof.
  induction l as [|x l IH]; simpl; constructor.
  - rewrite filter_In, String.eqb_refl. simpl. intros [_ H]. discriminate.
  - now apply NoDup_filter.
Qed.

Lemma first_seen_snoc (l : list string) (k : string) :
  first_seen (l ++ [k])
  = if existsb (String.eqb k) l then first_seen l else (first_seen l ++ [k])%list.
Proof.
  induction l as [|x l IH]; simpl; [reflexivity |].
  rewrite IH. destruct (String.eqb_spec k x) as [->|N]; simpl.
  - destruct (existsb (String.eqb x) l); [reflexivity |].
    rewrite filter_app. simpl. rewrite String.eqb_refl. simpl.
    now rewrite app_nil_r.
  - destruct (existsb (String.eqb k) l); [reflexivity |].
    rewrite filter_app. simpl.
    destruct (String.eqb_spec k x) as [E|_]; [congruence |]. reflexivity.
Qed.

Lemma existsb_eqb_In (k : string) (l : list string) :
  existsb (String.eqb k) l = true <-> In k l.
Proof.
  rewrite existsb_exists. split.
  - intros [x [H E]]. apply String.eqb_eq in E. now subst.
  - intros H. exists k. split; [exact H | apply String.eqb_refl].
Qed.

Lemma values_of_snoc (k' k v : string) (l : list (string * string)) :
  values_of k' (l ++ [(k, v)])
  = (values_of k' l ++ (if (k =? k')%string then [v] else []))%list.
Proof.
  unfold values_of. rewrite filter_app, map_app. simpl.
  destruct (k =? k')%string; reflexivity.
Qed.

Lemma values_of_absent (k : string) (l : list (string * string)) :
  ~ In k (List.map fst l) -> values_of k l = [].
Proof.
  unfold values_of. induction l as [|[k0 v0] l IH]; simpl; [reflexivity |].
  intros H. destruct (String.eqb_spec k0 k) as [E|N]; [tauto |].
  apply IH. tauto.
Qed.

Lemma values_of_present (k : string) (l : list (string * string)) :
  In k (List.map fst l) -> values_of k l <> [].
Proof.
  unfold values_of. induction l as [|[k0 v0] l IH]; simpl; [tauto |].
  intros H. destruct (String.eqb_spec k0 k) as [E|N]; simpl; [discriminate |].
  apply IH. destruct H; [contradiction | assumption].
Qed.

(** Dictionaries that list every key once. *)

Lemma dict_get_tabulate {V : Type} (f : string -> V) (ks : list string) (k : string) :
  dict_get (List.map (fun k' => (k', f k')) ks) k
  = if existsb (String.eqb k) ks then Some (f k) else None.
Proof.
  induction ks as [|x ks IH]; simpl; [reflexivity |].
  rewrite (String.eqb_sym k x).
  destruct (String.eqb_spec x k) as [->|N]; simpl; [reflexivity | exact IH].
Qed.

Lemma dict_set_absent {V : Type} (d : dict V) (k : string) (v : V) :
  dict_get d k = None -> dict_set d k v = (d ++ [(k, v)])%list.
Proof.
  induction d as [|[k0 v0] d IH]; simpl; [reflexivity |].
  destruct (k0 =? k)%string; [discriminate |].
  intros H. now rewrite (IH H).
Qed.

Lemma dict_set_last {V : Type} (d : dict V) (k : string) (v w : V) :
  dict_get d k = None -> dict_set (d ++ [(k, v)])%list k w = (d ++ [(k, w)])%list.
Proof.
  induction d as [|[k0 v0] d IH]; simpl.
  - now rewrite String.eqb_refl.
  - destruct (k0 =? k)%string; [discriminate |].
    intros H. now rewrite (IH H).
Qed.

Lemma dict_get_last {V : Type} (d : dict V) (k : string) (v : V) :
  dict_get d k = None -> dict_get (d ++ [(k, v)])%list k = Some v.
Proof.
  induction d as [|[k0 v0] d IH]; simpl.
  - now rewrite String.eqb_refl.
  - destruct (k0 =? k)%string; [discriminate | exact IH].
Qed.

Lemma dict_set_tabulate {V : Type} (f g : string -> V) (ks : list string)
    (k : string) :
  NoDup ks -> In k ks -> (forall k', k' <> k -> g k' = f k') ->
  dict_set (List.map (fun k' => (k', f k')) ks) k (g k)
  = List.map (fun k' => (k', g k')) ks.
Proof.
  intros ND HIn Hg. induction ks as [|x ks IH]; simpl; [contradiction |].
  inversion ND as [|? ? Hx ND']; subst.
  destruct (String.eqb_spec x k) as [->|N].
  - f_equal. apply map_ext_in. intros k' Hk'.
    rewrite Hg; [reflexivity |]. intros ->. contradiction.
  - rewrite (Hg x N). f_equal. apply IH; [exact ND' |].
    destruct HIn; [contradiction | assumption].
Qed.

(** One turn of the loop of [_get_render_options] on the dictionary of the
    pairs read so far. *)
Lemma loop_body_grouped (done : list (string * string)) (k v : string) :
  let res := grouped done in
  let res1 := if negb (dict_mem k res) then dict_set res k [] else res in
  exists vs, dict_item res1 k = Ok vs
             /\ dict_set res1 k (vs ++ [v])%list = grouped (done ++ [(k, v)]).
Proof.
  cbv zeta. unfold dict_mem, dict_item, grouped.
  replace (List.map fst (done ++ [(k, v)])) with (List.map fst done ++ [k])%list
    by (rewrite map_app; reflexivity).
  rewrite first_seen_snoc, dict_get_tabulate.
  destruct (existsb (String.eqb k) (List.map fst done)) eqn:E.
  - (* the key has been seen *)
    assert (HIn : In k (first_seen (List.map fst done))).
    { apply first_seen_In. now apply existsb_eqb_In. }
    assert (E' : existsb (String.eqb k) (first_seen (List.map fst done)) = true)
      by now apply existsb_eqb_In.
    rewrite E'. simpl. rewrite dict_get_tabulate, E'.
    eexists. split; [reflexivity |].
    rewrite <- (dict_set_tabulate (fun k' => values_of k' done)
                  (fun k' => values_of k' (done ++ [(k, v)]))
                  (first_seen (List.map fst done)) k).
    + rewrite values_of_snoc, String.eqb_refl. reflexivity.
    + apply first_seen_NoDup.
    + exact HIn.
    + intros k' N. rewrite values_of_snoc.
      destruct (String.eqb_spec k k') as [->|_]; [contradiction |].
      now rewrite app_nil_r.
  - (* a new key *)
    assert (HnIn : ~ In k (List.map fst done)).
    { rewrite <- existsb_eqb_In. congruence. }
    assert (E' : existsb (String.eqb k) (first_seen (List.map fst done)) = false).
    { destruct (existsb (String.eqb k) (first_seen (List.map fst done))) eqn:F;
        [| reflexivity].
      apply (proj1 (existsb_eqb_In _ _)) in F.
      apply (proj1 (first_seen_In _ _)) in F. contradiction. }
    assert (G : dict_get (List.map (fun k' => (k', values_of k' done))
                            (first_seen (List.map fst done))) k = None).
    { now rewrite dict_get_tabulate, E'. }
    rewrite E'. simpl. rewrite (dict_set_absent _ _ _ G), (dict_get_last _ _ _ G).
    eexists. split; [reflexivity |].
    rewrite (dict_set_last _ _ _ _ G), map_app. simpl.
    rewrite values_of_snoc, String.eqb_refl, (values_of_absent _ _ HnIn). simpl.
    f_equal. apply map_ext_in. intros k' Hk'. rewrite values_of_snoc.
    destruct (String.eqb_spec k k') as [->|_]; [| now rewrite app_nil_r].
    apply (proj1 (first_seen_In _ _)) in Hk'. contradiction.
Qed.

(** The loop succeeds exactly on well-formed segments, and then builds the
    grouped dictionary. *)
Lemma render_options_loop_grouped (ps : list string) (done : list (string * string)) :
  Forall well_formed ps ->
  render_options_loop ps (grouped done) = Ok (grouped (done ++ pairs_of ps)).
Proof.
  revert done. induction ps as [|p ps IH]; intros done H; simpl.
  - now rewrite app_nil_r.
  - inversion H as [|? ? Hp Hps]; subst.
    rewrite (unpack2_well_formed _ Hp). simpl.
    destruct (loop_body_grouped done (key_of p) (value_of p)) as [vs [E1 E2]].
    rewrite E1. simpl. rewrite E2, (IH _ Hps), <- app_assoc. reflexivity.
Qed.

Lemma render_options_loop_malformed (ps : list string) (res : dict (list string)) :
  Exists (fun seg => ~ well_formed seg) ps ->
  exists e, render_options_loop ps res = Raise e.
Proof.
  revert res. induction ps as [|p ps IH]; intros res H; [inversion H |].
  simpl. destruct (well_formed_dec p) as [Hp|Hp].
  - rewrite (unpack2_well_formed _ Hp). simpl.
    destruct (dict_item _ _) as [vs|e]; simpl; [| now exists e].
    apply IH. inversion H; [contradiction | assumption].
  - destruct (unpack2_not_well_formed _ Hp) as [e E]. rewrite E. now exists e.
Qed.

Lemma malformed_dec (rp : string) : {malformed rp} + {Forall well_formed (segments rp)}.
Proof.
  unfold malformed. generalize (segments rp). intros l.
  induction l as [|p l [IH|IH]].
  - right. constructor.
  - left. now apply Exists_cons_tl.
  - destruct (well_formed_dec p) as [Hp|Hp].
    + right. now constructor.
    + left. now apply Exists_cons_hd.
Qed.

Lemma malformed_not_all (rp : string) :
  malformed rp -> Forall well_formed (segments rp) -> False.
Proof.
  unfold malformed. intros HE HF.
  apply Exists_exists in HE. destruct HE as [x [Hx Hn]].
  rewrite Forall_forall in HF. exact (Hn (HF x Hx)).
Qed.

(** [_get_render_options] on a string with well-formed segments: the mapping
    of the specification. *)
Lemma get_render_options_grouped (rp : string) :
  Forall well_formed (segments rp) ->
  _get_render_options rp = Ok (grouped (pairs_of (segments rp))).
Proof.
  intros H. unfold _get_render_options.
  exact (render_options_loop_grouped _ [] H).
Qed.

Lemma get_render_options_malformed (rp : string) :
  malformed rp -> exists e, _get_render_options rp = Raise e.
Proof. intros H. now apply render_options_loop_malformed. Qed.

Lemma dict_get_grouped (k : string) (pairs : list (string * string)) :
  dict_get (grouped pairs) k
  = match values_of k pairs with
    | [] => None
    | vs => Some vs
    end.
Proof.
  unfold grouped. rewrite dict_get_tabulate.
  destruct (existsb (String.eqb k) (first_seen (List.map fst pairs))) eqn:E.
  - apply (proj1 (existsb_eqb_In _ _)) in E.
    apply (proj1 (first_seen_In _ _)) in E.
    pose proof (values_of_present _ _ E).
    destruct (values_of k pairs); [contradiction | reflexivity].
  - assert (N : ~ In k (List.map fst pairs)).
    { intros H. apply (proj2 (first_seen_In _ _)) in H.
      apply (proj2 (existsb_eqb_In _ _)) in H. congruence. }
    now rewrite (values_of_absent _ _ N).
Qed.

End RenderOptions.

(** *** models.py: validation of an animation request *)

Section Validation.
Import RequestSpec models.

Lemma dict_mem_deltas (u : string) :
  dict_mem u _deltas = true <-> In u delta_units.
Proof.
  cbv [dict_mem _deltas dict_get delta_units In].
  repeat match goal with
         | |- context [(?a =? u)%string] =>
             destruct (String.eqb_spec a u) as [<-|?];
             [split; intros _; tauto |]
         end.
  split; [discriminate |]. intros H.
  repeat (destruct H as [H|H]; [congruence |]). contradiction.
Qed.

Lemma validate_unit_cases (u : string) :
  (In u delta_units /\ _validate_unit u = Ok u)
  \/ (unit_invalid u
      /\ _validate_unit u
         = Raise (ValueError
             "Invalid unit. Must be one of: mins, hours, days, weeks, months, years")).
Proof.
  unfold _validate_unit, unit_invalid.
  destruct (dict_mem u _deltas) eqn:E; simpl.
  - left. split; [now apply dict_mem_deltas | reflexivity].
  - right. split; [| reflexivity].
    intros H. apply dict_mem_deltas in H. congruence.
Qed.

(** The four outcomes of the [render_params] validator. *)
Lemma validate_render_params_cases (rp : string) :
  (malformed rp
   /\ _validate_render_params rp = Raise (ValueError "Invalid render_params"))
  \/ (~ malformed rp /\ collection_missing rp
      /\ _validate_render_params rp
         = Raise (ValueError "Missing collection in render_params"))
  \/ (~ malformed rp /\ collection_multiple rp
      /\ _validate_render_params rp
         = Raise (ValueError "Multiple collections in render_params"))
  \/ (~ malformed rp /\ (exists c, collection_values rp = [c])
      /\ _validate_render_params rp = Ok rp).
Proof.
  unfold _validate_render_params.
  destruct (malformed_dec rp) as [M|W].
  - left. split; [exact M |].
    destruct (get_render_options_malformed rp M) as [e ->]. reflexivity.
  - right. assert (N : ~ malformed rp) by (intros M; exact (malformed_not_all rp M W)).
    rewrite (get_render_options_grouped rp W).
    unfold dict_mem, dict_item. rewrite dict_get_grouped.
    unfold collection_missing, collection_multiple, collection_values.
    destruct (values_of "collection" (pairs_of (segments rp))) as [|c [|c' l]]; simpl.
    + left. auto.
    + right. right. split; [exact N |]. split; [now exists c | reflexivity].
    + right. left. split; [exact N |]. split; [lia | reflexivity].
Qed.

End Validation.


(** The rejections listed by the specification: two [collection] keys, a
    segment without [=], and a unit that is not a delta unit. *)
Example new_AnimationRequest_rejections :
  models.new_AnimationRequest
    (RequestSpec.example_request "collection=a&collection=b" "days" 10)
  = models.ValidationError
      [("render_params", "Multiple collections in render_params")]
  /\ models.new_AnimationRequest (RequestSpec.example_request "a" "days" 10)
     = models.ValidationError [("render_params", "Invalid render_params")]
  /\ models.new_AnimationRequest
       (RequestSpec.example_request "collection=naip" "decades" 10)
     = models.ValidationError
         [("unit",
           "Invalid unit. Must be one of: mins, hours, days, weeks, months, years")]
  /\ models.new_AnimationRequest RequestSpec.naip_request
     = models.Accepted RequestSpec.naip_request.
Proof. repeat split; reflexivity. Qed.

(** *** models.py: the collection of a validated request *)

(** C9.  When the validator accepts [render_params], [get_collection] does
    not raise: parsing the string again succeeds, the [collection] key is
    there, and the value returned is the only value the string gives for
    it. *)
Theorem get_collection_after_validation :
  forall (float datetime json : Type)
         (self : models.AnimationRequest float datetime json) (v : string),
    models._validate_render_params (models.render_params self) = Ok v ->
    exists c,
      models.get_collection self = Ok c
      /\ RequestSpec.collection_values (models.render_params self) = [c]
      /\ exists options,
           models._get_render_options (models.render_params self) = Ok options
           /\ dict_get options "collection" = Some [c].
Proof.
  intros float datetime json self v H.
  destruct (validate_render_params_cases (models.render_params self))
    as [[M E]|[[N [C E]]|[[N [C E]]|[N [[c C] E]]]]];
    try (rewrite E in H; discriminate).
  assert (W : Forall RequestSpec.well_formed
                (RequestSpec.segments (models.render_params self))).
  { destruct (malformed_dec (models.render_params self)); [contradiction | assumption]. }
  exists c. unfold models.get_collection.
  rewrite (get_render_options_grouped _ W). simpl.
  unfold dict_item. rewrite dict_get_grouped.
  unfold RequestSpec.collection_values in C. rewrite C. simpl.
  split; [reflexivity |]. split; [exact C |].
  eexists. split; [reflexivity |]. now rewrite dict_get_grouped, C.
Qed.

Lemma get_collection_naip :
  exists c,
    models.get_collection RequestSpec.naip_request = Ok c
    /\ RequestSpec.collection_values
         (models.render_params RequestSpec.naip_request) = [c]
    /\ exists options,
         models._get_render_options
           (models.render_params RequestSpec.naip_request) = Ok options
         /\ dict_get options "collection" = Some [c].
Proof.
  apply (get_collection_after_validation _ _ _ RequestSpec.naip_request
           "collection=naip&asset=image&asset=visual").
  reflexivity.
Defined.

(** *** models.py: the encoded render parameters *)

Lemma concat_snoc (sep x : string) (l : list string) :
  l <> [] ->
  String.concat sep (l ++ [x]) = String.concat sep l ++ sep ++ x.
Proof.
  induction l as [|a l IH]; intros H; [contradiction |].
  destruct l as [|b l]; [reflexivity |].
  change (String.concat sep ((a :: b :: l) ++ [x]))
    with (a ++ sep ++ String.concat sep ((b :: l) ++ [x])).
  rewrite IH by discriminate.
  change (String.concat sep (a :: b :: l))
    with (a ++ sep ++ String.concat sep (b :: l)).
  now rewrite !append_assoc.
Qed.



(** *** models.py: the frame count *)

(** C5.  [get_valid_frames] is the smaller of the requested frame count and
    [MAX_FRAMES]: a request above the maximum yields the maximum, a request
    at or below it is returned unchanged.  The function is total, so no
    request makes it fail. *)
Theorem get_valid_frames_min :
  forall (MAX_FRAMES : Z) (float datetime json : Type)
         (self : models.AnimationRequest float datetime json),
    models.get_valid_frames MAX_FRAMES self = Z.min (models.frames self) MAX_FRAMES
    /\ (MAX_FRAMES < models.frames self ->
        models.get_valid_frames MAX_FRAMES self = MAX_FRAMES)%Z
    /\ (models.frames self <= MAX_FRAMES ->
        models.get_valid_frames MAX_FRAMES self = models.frames self)%Z
    /\ (models.get_valid_frames MAX_FRAMES self <= MAX_FRAMES)%Z.
Proof.
  intros MAX_FRAMES float datetime json self. unfold models.get_valid_frames.
  repeat split; lia.
Qed.

Example get_valid_frames_100 :
  models.get_valid_frames 100 (RequestSpec.example_request "collection=naip" "days" 500)
  = 100%Z
  /\ models.get_valid_frames 100 (RequestSpec.example_request "collection=naip" "days" 10)
     = 10%Z.
Proof. split; reflexivity. Qed.

(** *** render.py: the CDN rewrite *)

Section Strings.

Lemma length_append (a b : string) :
  String.length (a ++ b) = String.length a + String.length b.
Proof. induction a as [|c a IH]; simpl; [reflexivity | now rewrite IH]. Qed.

Lemma str_take_append (a b : string) :
  str_take (String.length (a ++ b) - String.length b) (a ++ b) = a.
Proof.
  rewrite length_append.
  replace (String.length a + String.length b - String.length b)
    with (String.length a) by lia.
  induction a as [|c a IH]; simpl.
  - destruct b; reflexivity.
  - now rewrite IH.
Qed.

Lemma strip_prefix_sound (p s s' : string) :
  strip_prefix p s = Some s' -> s = p ++ s'.
Proof.
  revert s. induction p as [|a p IH]; intros s; simpl.
  - now intros [= ->].
  - destruct s as [|b s]; [discriminate |].
    destruct (Ascii.eqb_spec a b) as [->|_]; [| discriminate].
    intros H. now rewrite (IH _ H).
Qed.

Lemma prefix_append (p s : string) : prefix p (p ++ s) = true.
Proof.
  induction p as [|a p IH]; simpl; [now destruct s |].
  destruct (ascii_dec a a); [exact IH | contradiction].
Qed.

End Strings.

Section Matching.
Context {A : Type}.

Lemma star_greedy_sound (p : ascii -> bool) (s : string) (caps : list string)
    (k : @cont A) (x : A) :
  star_greedy p s caps k = Some x ->
  exists s1 s2, s = s1 ++ s2 /\ RenderSpec.all_chars p s1 = true
                /\ k s2 caps = Some x.
Proof.
  induction s as [|c s IH]; simpl; intros H.
  - exists "", "". auto.
  - destruct (p c) eqn:Pc.
    + destruct (star_greedy p s caps k) as [y|] eqn:E.
      * injection H as ->. destruct (IH eq_refl) as [s1 [s2 [-> [H1 H2]]]].
        exists (String c s1), s2. simpl. rewrite Pc, H1. auto.
      * exists "", (String c s). auto.
    + exists "", (String c s). auto.
Qed.

Lemma plus_lazy_more_sound (p : ascii -> bool) (s : string) (caps : list string)
    (k : @cont A) (x : A) :
  plus_lazy_more p s caps k = Some x ->
  exists s1 s2, s = s1 ++ s2 /\ RenderSpec.all_chars p s1 = true
                /\ k s2 caps = Some x.
Proof.
  induction s as [|c s IH]; simpl; intros H.
  - destruct (k "" caps) as [y|] eqn:E; [| discriminate].
    exists "", "". repeat split. congruence.
  - destruct (k (String c s) caps) as [y|] eqn:E.
    + exists "", (String c s). repeat split. congruence.
    + destruct (p c) eqn:Pc; [| discriminate].
      destruct (IH H) as [s1 [s2 [-> [H1 H2]]]].
      exists (String c s1), s2. simpl. rewrite Pc, H1. auto.
Qed.

End Matching.

Section BlobCDN.
Import render RenderSpec.

(** What a match of [BLOB_REGEX] says about the URL. *)
Lemma BLOB_REGEX_sound (url : string) (caps : list string) :
  re_match BLOB_REGEX url = Some caps ->
  exists pre acct rest,
    url = pre ++ "/" ++ acct ++ ".blob.core.windows.net" ++ rest
    /\ caps = [acct] /\ acct <> "" /\ all_chars not_slash acct = true
    /\ all_chars dot pre = true.
Proof.
  unfold re_match, BLOB_REGEX. cbn [rmatch]. intros H.
  apply star_greedy_sound in H. destruct H as [pre [s2 [-> [Hpre H]]]].
  cbv beta in H.
  destruct (strip_prefix "/" s2) as [s3|] eqn:E2; [| discriminate].
  apply strip_prefix_sound in E2. subst s2.
  destruct s3 as [|c s3]; [discriminate |].
  destruct (not_slash c) eqn:Pc; [| discriminate].
  apply plus_lazy_more_sound in H. destruct H as [a1 [s4 [-> [Ha H]]]].
  cbv beta in H.
  change (String c (a1 ++ s4)) with (String c a1 ++ s4) in H.
  rewrite str_take_append in H.
  destruct (strip_prefix ".blob.core.windows.net" s4) as [s5|] eqn:E4;
    [| discriminate].
  apply strip_prefix_sound in E4. subst s4.
  apply star_greedy_sound in H. destruct H as [r1 [r2 [-> [_ H]]]].
  cbv beta in H. injection H as <-.
  exists pre, (String c a1), (r1 ++ r2). repeat split.
  - discriminate.
  - simpl. now rewrite Pc, Ha.
  - exact Hpre.
Qed.

Lemma BLOB_REGEX_slash (url : string) (caps : list string) :
  re_match BLOB_REGEX url = Some caps -> slash_before_account url.
Proof.
  intros H. destruct (BLOB_REGEX_sound _ _ H) as [pre [acct [rest [E [_ [N [S _]]]]]]].
  now exists pre, acct, rest.
Qed.

Lemma account_here_unfold (s : string) (seen : bool) :
  account_here s seen
  = (seen && prefix ".blob.core.windows.net" s)
    || match s with
       | "" => false
       | String c s' => not_slash c && account_here s' true
       end.
Proof. destruct s; reflexivity. Qed.

Lemma account_here_complete (acct rest : string) (seen : bool) :
  all_chars not_slash acct = true -> seen = true \/ acct <> "" ->
  account_here (acct ++ ".blob.core.windows.net" ++ rest) seen = true.
Proof.
  revert seen. induction acct as [|c acct IH]; intros seen Hall Hne.
  - destruct Hne as [->|Hne]; [| contradiction].
    rewrite account_here_unfold.
    change ("" ++ ".blob.core.windows.net" ++ rest)
      with (".blob.core.windows.net" ++ rest).
    now rewrite prefix_append.
  - simpl in Hall. apply andb_true_iff in Hall. destruct Hall as [Hc Hall].
    change (account_here (String c acct ++ ".blob.core.windows.net" ++ rest) seen)
      with ((seen && prefix ".blob.core.windows.net"
                       (String c (acct ++ ".blob.core.windows.net" ++ rest)))
            || (not_slash c
                && account_here (acct ++ ".blob.core.windows.net" ++ rest) true)).
    rewrite Hc, (IH true Hall (or_introl eq_refl)). apply orb_true_r.
Qed.

Lemma has_slash_account_complete (url : string) :
  slash_before_account url -> has_slash_account url = true.
Proof.
  intros [pre [acct [rest [-> [Hne Hall]]]]].
  induction pre as [|c pre IH].
  - change (has_slash_account ("" ++ "/" ++ acct ++ ".blob.core.windows.net" ++ rest))
      with ((("/" =? "/")%char
             && account_here (acct ++ ".blob.core.windows.net" ++ rest) false)
            || has_slash_account (acct ++ ".blob.core.windows.net" ++ rest)).
    rewrite (account_here_complete acct rest false Hall (or_intror Hne)).
    reflexivity.
  - change (has_slash_account
              (String c pre ++ "/" ++ acct ++ ".blob.core.windows.net" ++ rest))
      with (((c =? "/")%char
             && account_here
                  (pre ++ "/" ++ acct ++ ".blob.core.windows.net" ++ rest) false)
            || has_slash_account
                 (pre ++ "/" ++ acct ++ ".blob.core.windows.net" ++ rest)).
    rewrite IH. apply orb_true_r.
Qed.

(** [str.replace] and the number of occurrences. *)

Lemma count_occurrences_append (old x b : string) :
  count_occurrences old b <= count_occurrences old (x ++ b).
Proof.
  induction x as [|c x IH]; simpl; [apply Nat.le_refl |].
  destruct (prefix old (String c (x ++ b))); lia.
Qed.

Lemma count_occurrences_here (old a b : string) :
  old <> "" -> 1 <= count_occurrences old (a ++ old ++ b).
Proof.
  intros Hne. induction a as [|c a IH].
  - destruct old as [|o old]; [contradiction |].
    change ("" ++ String o old ++ b) with (String o (old ++ b)).
    change (count_occurrences (String o old) (String o (old ++ b)))
      with ((if prefix (String o old) (String o old ++ b) then 1 else 0)
            + count_occurrences (String o old) (old ++ b)).
    rewrite prefix_append. lia.
  - change (count_occurrences old (String c a ++ old ++ b))
      with ((if prefix old (String c (a ++ old ++ b)) then 1 else 0)
            + count_occurrences old (a ++ old ++ b)).
    lia.
Qed.

Lemma str_replace_from_none (old new s : string) :
  count_occurrences old s = 0 -> str_replace_from old new s 0 = s.
Proof.
  induction s as [|c s IH]; [reflexivity |].
  change (count_occurrences old (String c s))
    with ((if prefix old (String c s) then 1 else 0) + count_occurrences old s).
  change (str_replace_from old new (String c s) 0)
    with (if prefix old (String c s)
          then new ++ str_replace_from old new s (String.length old - 1)
          else String c (str_replace_from old new s 0)).
  destruct (prefix old (String c s)); [discriminate |].
  intros H. now rewrite (IH H).
Qed.

Lemma str_replace_from_skip (old new x b : string) :
  str_replace_from old new (x ++ b) (String.length x) = str_replace_from old new b 0.
Proof.
  induction x as [|c x IH]; [reflexivity | exact IH].
Qed.

(** With a single occurrence, [replace] rewrites that occurrence and nothing
    else. *)
Lemma str_replace_from_single (old new a b : string) :
  old <> "" -> count_occurrences old (a ++ old ++ b) = 1 ->
  str_replace_from old new (a ++ old ++ b) 0 = a ++ new ++ b.
Proof.
  intros Hne. induction a as [|c a IH]; intros H.
  - destruct old as [|o old]; [contradiction |].
    change ("" ++ String o old ++ b) with (String o (old ++ b)) in *.
    change (count_occurrences (String o old) (String o (old ++ b)))
      with ((if prefix (String o old) (String o old ++ b) then 1 else 0)
            + count_occurrences (String o old) (old ++ b)) in H.
    change (str_replace_from (String o old) new (String o (old ++ b)) 0)
      with (if prefix (String o old) (String o old ++ b)
            then new ++ str_replace_from (String o old) new (old ++ b)
                          (String.length (String o old) - 1)
            else String o (str_replace_from (String o old) new (old ++ b) 0)).
    rewrite prefix_append in *.
    replace (String.length (String o old) - 1) with (String.length old)
      by (simpl; lia).
    rewrite str_replace_from_skip, str_replace_from_none; [reflexivity |].
    pose proof (count_occurrences_append (String o old) old b). lia.
  - change (String c a ++ old ++ b) with (String c (a ++ old ++ b)) in *.
    change (count_occurrences old (String c (a ++ old ++ b)))
      with ((if prefix old (String c (a ++ old ++ b)) then 1 else 0)
            + count_occurrences old (a ++ old ++ b)) in H.
    change (str_replace_from old new (String c (a ++ old ++ b)) 0)
      with (if prefix old (String c (a ++ old ++ b))
            then new ++ str_replace_from old new (a ++ old ++ b)
                          (String.length old - 1)
            else String c (str_replace_from old new (a ++ old ++ b) 0)).
    pose proof (count_occurrences_here old a b Hne).
    destruct (prefix old (String c (a ++ old ++ b))); [lia |].
    rewrite IH by lia. reflexivity.
Qed.

Lemma transform_if_available_cases (url : string) :
  transform_if_available url
  = match re_match BLOB_REGEX url with
    | Some (acct :: _) =>
        if set_mem acct STORAGE_ACCOUNTS_WITH_CDNS
        then str_replace "blob.core.windows" "azureedge" url
        else url
    | _ => url
    end.
Proof.
  unfold transform_if_available.
  destruct (re_match BLOB_REGEX url) as [[|acct l]|]; reflexivity.
Qed.

End BlobCDN.

(** C3 (as amended).  A URL that does not match [BLOB_REGEX], or whose
    captured account is not in the allow-list, is returned unchanged.  A URL
    whose captured account is in the allow-list has every occurrence of
    [blob.core.windows] replaced by [azureedge], wherever it stands in the
    URL, and nothing else changed; the account captured is a non-empty
    segment without slashes between a [/] and [.blob.core.windows.net], and
    when the substring occurs only there the result is the URL with its host
    alone rewritten. *)
Theorem transform_if_available_replaces_every_occurrence :
  forall url : string,
    (re_match render.BLOB_REGEX url = None ->
     render.transform_if_available url = url)
    /\ (forall acct,
          re_match render.BLOB_REGEX url = Some [acct] ->
          render.set_mem acct render.STORAGE_ACCOUNTS_WITH_CDNS = false ->
          render.transform_if_available url = url)
    /\ (forall acct,
          re_match render.BLOB_REGEX url = Some [acct] ->
          render.set_mem acct render.STORAGE_ACCOUNTS_WITH_CDNS = true ->
          render.transform_if_available url
          = str_replace "blob.core.windows" "azureedge" url
          /\ exists pre rest,
               url = pre ++ "/" ++ acct ++ ".blob.core.windows.net" ++ rest
               /\ acct <> "" /\ RenderSpec.all_chars not_slash acct = true
               /\ (RenderSpec.count_occurrences "blob.core.windows" url = 1 ->
                   render.transform_if_available url
                   = RenderSpec.host_rewrite pre acct rest))
    /\ (forall caps,
          re_match render.BLOB_REGEX url = Some caps ->
          exists acct, caps = [acct]).
Proof.
  intros url. rewrite transform_if_available_cases.
  split; [| split; [| split]].
  - now intros ->.
  - intros acct -> ->. reflexivity.
  - intros acct E M. rewrite E, M. split; [reflexivity |].
    destruct (BLOB_REGEX_sound _ _ E) as [pre [a [rest [U [[= <-] [N [S _]]]]]]].
    exists pre, rest. repeat split; try assumption.
    intros C. unfold RenderSpec.host_rewrite.
    assert (Hne : "blob.core.windows" <> "") by discriminate.
    assert (U' : url = (pre ++ "/" ++ acct ++ ".") ++ "blob.core.windows"
                       ++ ".net" ++ rest).
    { rewrite U, !append_assoc. reflexivity. }
    change (str_replace "blob.core.windows" "azureedge" url)
      with (str_replace_from "blob.core.windows" "azureedge" url 0).
    rewrite U' in C. rewrite U' at 1.
    rewrite (str_replace_from_single _ _ _ _ Hne C).
    rewrite !append_assoc. reflexivity.
  - intros caps E.
    destruct (BLOB_REGEX_sound _ _ E) as [pre [a [rest [_ [-> _]]]]].
    now exists a.
Qed.

Lemma transform_if_available_naip :
  render.transform_if_available RenderSpec.naip_url
  = "https://naipeuwest.azureedge.net/x/y.tif".
Proof.
  destruct (proj1 (proj2 (proj2
              (transform_if_available_replaces_every_occurrence
                 RenderSpec.naip_url))) "naipeuwest" eq_refl eq_refl)
    as [E _].
  rewrite E. reflexivity.
Defined.

(** C3 (as stated) fails: on a URL whose path also holds
    [blob.core.windows], the occurrence in the path is rewritten with the
    one in the host. *)
Lemma transform_if_available_rewrites_path :
  re_match render.BLOB_REGEX RenderSpec.naip_url_path = Some ["naipeuwest"]
  /\ render.set_mem "naipeuwest" render.STORAGE_ACCOUNTS_WITH_CDNS = true
  /\ RenderSpec.naip_url_path
     = "https:/" ++ "/" ++ "naipeuwest" ++ ".blob.core.windows.net"
       ++ "/blob.core.windows/y.tif"
  /\ RenderSpec.host_rewrite "https:/" "naipeuwest" "/blob.core.windows/y.tif"
     = "https://naipeuwest.azureedge.net/blob.core.windows/y.tif"
  /\ render.transform_if_available RenderSpec.naip_url_path
     = "https://naipeuwest.azureedge.net/azureedge/y.tif"
  /\ render.transform_if_available RenderSpec.naip_url_path
     <> RenderSpec.host_rewrite "https:/" "naipeuwest" "/blob.core.windows/y.tif".
Proof.
  repeat split; try reflexivity. discriminate.
Qed.



(** *** progress_bar.py: a single-frame sequence *)

(** C7 (violated by the code).  For a frame context with [frame_count = 1]
    the divisor [frame_count - 1] is zero: evaluating [bar_width] raises
    [ZeroDivisionError], and so does [apply], whatever the image, the frame
    number, and the implementation of floats and of Pillow. *)
Theorem apply_single_frame_raises :
  forall (float : Type) (float_of_int : Z -> float) (float_div : Z -> Z -> float)
         (float_mul float_sub : float -> float -> float)
         (int_of_float : float -> result Z) (BG_PAD : float)
         (PILImage color : Type) (width height : PILImage -> Z)
         (TRANSPARENT : color) (rgba : Z -> Z -> Z -> Z -> color)
         (Image_new : string -> Z * Z -> color -> PILImage)
         (draw_rectangle :
            PILImage ->
            (progress_bar.coord float * progress_bar.coord float)
            * (progress_bar.coord float * progress_bar.coord float) ->
            color -> PILImage)
         (alpha_composite : PILImage -> PILImage -> result PILImage)
         (image : PILImage) (n : Z),
    let frame := {| progress_bar.frame_number := n; progress_bar.frame_count := 1 |} in
    progress_bar.bar_width float float_of_int float_div float_mul int_of_float
      PILImage width image frame
    = Raise ZeroDivisionError
    /\ progress_bar.apply float float_of_int float_div float_mul float_sub
         int_of_float BG_PAD PILImage color width height TRANSPARENT rgba
         Image_new draw_rectangle alpha_composite frame image
       = Raise ZeroDivisionError.
Proof.
  intros. split; reflexivity.
Qed.

(** *** item.py: the map endpoint *)

Lemma dict_get_None_iff {V : Type} (d : dict V) (k : string) :
  dict_get d k = None <-> ~ In k (List.map fst d).
Proof.
  induction d as [|[k0 v0] d IH]; simpl; [tauto |].
  destruct (String.eqb_spec k0 k) as [->|N].
  - split; [discriminate | tauto].
  - rewrite IH. tauto.
Qed.

(** C8.  For a collection with no entry in [COLLECTION_RENDER_CONFIG] the
    map endpoint returns a response with status 404 whose content names the
    collection; for a collection with an entry it returns the template
    response, whose status is not 404, built from the entry's query string.
    In both cases a response is returned: nothing is raised. *)
Theorem map_unknown_collection_404 :
  forall (Request : Type) (url_for : Request -> string -> string)
         (stac_api_href : string) (urljoin : string -> string -> string)
         (param_str : dict render.param_value -> string)
         (request : Request) (collection item_id : string),
    let response :=
      item.map Request url_for stac_api_href urljoin param_str
               request collection item_id in
    (~ In collection (List.map fst render.COLLECTION_RENDER_CONFIG) ->
     response
     = item.PlainResponse 404 ("No item map available for collection " ++ collection)
     /\ item.status_code response = 404%Z)
    /\ (In collection (List.map fst render.COLLECTION_RENDER_CONFIG) ->
        item.status_code response <> 404%Z
        /\ exists render_config,
             dict_get render.COLLECTION_RENDER_CONFIG collection = Some render_config
             /\ response
                = item.TemplateResponse "item_preview.html"
                    {| item.request := request;
                       item.tileJson :=
                         url_for request "tilejson" ++ "?"
                         ++ render.get_full_render_qs param_str render_config
                              collection (Some item_id);
                       item.collectionId := collection;
                       item.itemId := item_id;
                       item.itemUrl :=
                         urljoin stac_api_href
                           ("collections/" ++ collection ++ "/items/" ++ item_id) |}).
Proof.
  intros Request url_for stac_api_href urljoin param_str request collection
         item_id response.
  subst response. unfold item.map.
  destruct (dict_get render.COLLECTION_RENDER_CONFIG collection) as [cfg|] eqn:E.
  - split.
    + intros H. apply dict_get_None_iff in H. congruence.
    + intros _. split; [simpl; discriminate |].
      exists cfg. split; reflexivity.
  - split.
    + intros _. split; reflexivity.
    + intros H. apply dict_get_None_iff in E. contradiction.
Qed.

Example map_examples :
  forall (Request : Type) (url_for : Request -> string -> string)
         (request : Request),
    item.map Request url_for "https://example.test/stac/" (fun a b => a ++ b)
             render.get_param_str request "no-such-collection" "i1"
    = item.PlainResponse 404 "No item map available for collection no-such-collection"
    /\ item.status_code
         (item.map Request url_for "https://example.test/stac/" (fun a b => a ++ b)
                   render.get_param_str request "naip" "i1")
       = 200%Z.
Proof. intros. split; reflexivity. Qed.

(** *** render.py: derived flags and the table *)

Lemma hidden_dominates (cfg : render.DefaultRenderConfig) :
  render.hidden cfg = true ->
  render.should_add_collection_links cfg = false
  /\ render.should_add_item_links cfg = false.
Proof.
  unfold render.should_add_collection_links, render.should_add_item_links.
  intros ->. simpl. now rewrite !andb_false_r.
Qed.

(** Every collection has one entry in the table. *)
Lemma COLLECTION_RENDER_CONFIG_one_entry_per_collection :
  NoDup (List.map fst render.COLLECTION_RENDER_CONFIG).
Proof.
  unfold render.COLLECTION_RENDER_CONFIG. cbn [List.map fst].
  repeat (constructor;
          [cbn [In]; intros H;
           repeat (destruct H as [H|H]; [discriminate H |]); exact H |]).
  constructor.
Qed.

(** *** render.py: more on the CDN rewrite *)

Section BlobCDNMatch.
Import render RenderSpec.

Lemma prefix_sound (p s : string) :
  prefix p s = true -> exists r, s = p ++ r.
Proof.
  revert s. induction p as [|a p IH]; intros s.
  - intros _. now exists s.
  - destruct s as [|b s]; simpl; [discriminate |].
    destruct (ascii_dec a b) as [->|_]; [| discriminate].
    intros H. destruct (IH _ H) as [r ->]. now exists r.
Qed.

Lemma strip_prefix_complete (p s : string) : strip_prefix p (p ++ s) = Some s.
Proof.
  induction p as [|a p IH]; simpl; [reflexivity |].
  now rewrite Ascii.eqb_refl.
Qed.

Lemma star_greedy_complete {A : Type} (p : ascii -> bool) (s1 s2 : string)
    (caps : list string) (k : @cont A) :
  all_chars p s1 = true -> k s2 caps <> None ->
  star_greedy p (s1 ++ s2) caps k <> None.
Proof.
  intros H1 Hk. induction s1 as [|c s1 IH].
  - destruct s2 as [|c s2]; simpl; [exact Hk |].
    destruct (p c); [| exact Hk].
    destruct (star_greedy p s2 caps k); [discriminate | exact Hk].
  - simpl in H1. apply andb_true_iff in H1. destruct H1 as [Pc H1].
    simpl. rewrite Pc.
    destruct (star_greedy p (s1 ++ s2) caps k) eqn:E; [discriminate |].
    exfalso. now apply IH.
Qed.

Lemma plus_lazy_more_complete {A : Type} (p : ascii -> bool) (s1 s2 : string)
    (caps : list string) (k : @cont A) :
  all_chars p s1 = true -> k s2 caps <> None ->
  plus_lazy_more p (s1 ++ s2) caps k <> None.
Proof.
  intros H1 Hk. induction s1 as [|c s1 IH].
  - destruct s2 as [|c s2]; simpl.
    + destruct (k "" caps); [discriminate | contradiction].
    + destruct (k (String c s2) caps); [discriminate | contradiction].
  - simpl in H1. apply andb_true_iff in H1. destruct H1 as [Pc H1].
    simpl. destruct (k (String c (s1 ++ s2)) caps); [discriminate |].
    rewrite Pc. now apply IH.
Qed.

(** Every URL of the shape the pattern describes is matched. *)
Lemma BLOB_REGEX_complete (pre acct rest : string) :
  all_chars dot pre = true -> acct <> "" -> all_chars not_slash acct = true ->
  re_match BLOB_REGEX (pre ++ "/" ++ acct ++ ".blob.core.windows.net" ++ rest)
  <> None.
Proof.
  intros Hpre Hne Hacct. unfold re_match, BLOB_REGEX. cbn [rmatch].
  apply star_greedy_complete; [exact Hpre |].
  rewrite strip_prefix_complete.
  destruct acct as [|c acct]; [contradiction |].
  simpl in Hacct. apply andb_true_iff in Hacct. destruct Hacct as [Pc Hacct].
  change (String c acct ++ ".blob.core.windows.net" ++ rest)
    with (String c (acct ++ ".blob.core.windows.net" ++ rest)).
  cbv iota. rewrite Pc.
  apply plus_lazy_more_complete; [exact Hacct |].
  rewrite strip_prefix_complete.
  change rest with ("" ++ rest) at 1.
  apply star_greedy_complete; [reflexivity | discriminate].
Qed.

End BlobCDNMatch.

Section Decomposition.
Import RenderSpec.

Lemma append_cancel_l (a b c : string) : a ++ b = a ++ c -> b = c.
Proof.
  induction a as [|x a IH]; simpl; [trivial |].
  intros [= H]. exact (IH H).
Qed.

Lemma append_cancel_r (x y z : string) : x ++ z = y ++ z -> x = y.
Proof.
  revert y. induction x as [|c x IH]; intros [|c' y] H.
  - reflexivity.
  - apply (f_equal String.length) in H. simpl in H.
    rewrite length_append in H. lia.
  - apply (f_equal String.length) in H. simpl in H.
    rewrite length_append in H. lia.
  - simpl in H. injection H as -> H. now rewrite (IH _ H).
Qed.

Lemma all_chars_append (p : ascii -> bool) (a b : string) :
  all_chars p (a ++ b) = all_chars p a && all_chars p b.
Proof.
  induction a as [|c a IH]; simpl; [reflexivity |].
  now rewrite IH, andb_assoc.
Qed.

(** The segment after the last slash is determined by the string. *)
Lemma last_segment_unique (x y a b : string) :
  all_chars not_slash a = true -> all_chars not_slash b = true ->
  x ++ "/" ++ a = y ++ "/" ++ b -> x = y /\ a = b.
Proof.
  intros Ha Hb. revert y. induction x as [|c x IH]; intros [|c' y] H.
  - simpl in H. injection H as H. now split.
  - simpl in H. injection H as <- H. subst a.
    rewrite all_chars_append in Ha. simpl in Ha.
    rewrite andb_false_r in Ha. discriminate.
  - simpl in H. injection H as -> H. subst b.
    rewrite all_chars_append in Hb. simpl in Hb.
    rewrite andb_false_r in Hb. discriminate.
  - simpl in H. injection H as -> H.
    destruct (IH _ H) as [-> ->]. now split.
Qed.

Lemma count_occurrences_cons (old : string) (c : ascii) (s : string) :
  count_occurrences old (String c s)
  = (if prefix old (String c s) then 1 else 0) + count_occurrences old s.
Proof. reflexivity. Qed.

(** With a single occurrence, the place of the occurrence is determined. *)
Lemma single_occurrence_unique (old a b a' b' : string) :
  old <> "" -> count_occurrences old (a ++ old ++ b) = 1 ->
  a ++ old ++ b = a' ++ old ++ b' -> a = a' /\ b = b'.
Proof.
  intros Hne. revert a'. induction a as [|c a IH]; intros [|c' a'] C E.
  - simpl in E. split; [reflexivity | exact (append_cancel_l _ _ _ E)].
  - exfalso. simpl in E, C. rewrite E in C.
    change (String c' a' ++ old ++ b') with (String c' (a' ++ old ++ b')) in C.
    rewrite count_occurrences_cons in C.
    pose proof (count_occurrences_here old a' b' Hne).
    rewrite <- E in C. rewrite prefix_append in C. lia.
  - exfalso. simpl in E.
    change (String c a ++ old ++ b) with (String c (a ++ old ++ b)) in C.
    rewrite count_occurrences_cons, E in C.
    pose proof (count_occurrences_here old a b Hne).
    rewrite prefix_append in C. lia.
  - simpl in E. injection E as -> E.
    change (String c' a ++ old ++ b) with (String c' (a ++ old ++ b)) in C.
    rewrite count_occurrences_cons in C.
    pose proof (count_occurrences_here old a b Hne).
    destruct (prefix old (String c' (a ++ old ++ b))); [lia |].
    destruct (IH a' C E) as [-> ->]. now split.
Qed.

End Decomposition.

Section BlobCDNSingle.
Import render RenderSpec.

Lemma BLOB_REGEX_occurrence (url : string) (caps : list string) :
  re_match BLOB_REGEX url = Some caps ->
  1 <= count_occurrences "blob.core.windows" url.
Proof.
  intros H.
  destruct (BLOB_REGEX_sound _ _ H) as [pre [acct [rest [-> _]]]].
  replace (pre ++ "/" ++ acct ++ ".blob.core.windows.net" ++ rest)
    with ((pre ++ "/" ++ acct ++ ".") ++ "blob.core.windows" ++ ".net" ++ rest)
    by (rewrite !append_assoc; reflexivity).
  apply count_occurrences_here. discriminate.
Qed.

(** On a URL with a single occurrence of the host suffix, the account that
    the pattern captures is the one before that occurrence. *)
Lemma BLOB_REGEX_single (pre acct rest : string) :
  all_chars dot pre = true -> acct <> "" -> all_chars not_slash acct = true ->
  count_occurrences "blob.core.windows"
    (pre ++ "/" ++ acct ++ ".blob.core.windows.net" ++ rest) = 1 ->
  re_match BLOB_REGEX (pre ++ "/" ++ acct ++ ".blob.core.windows.net" ++ rest)
  = Some [acct].
Proof.
  intros Hpre Hne Hacct C.
  destruct (re_match BLOB_REGEX
              (pre ++ "/" ++ acct ++ ".blob.core.windows.net" ++ rest))
    as [caps|] eqn:E.
  - destruct (BLOB_REGEX_sound _ _ E)
      as [pre' [acct' [rest' [U [-> [Hne' [Hacct' _]]]]]]].
    assert (U1 : (pre ++ "/" ++ acct ++ ".") ++ "blob.core.windows" ++ ".net" ++ rest
                 = (pre' ++ "/" ++ acct' ++ ".") ++ "blob.core.windows"
                   ++ ".net" ++ rest').
    { rewrite !append_assoc. exact U. }
    assert (C1 : count_occurrences "blob.core.windows"
                   ((pre ++ "/" ++ acct ++ ".") ++ "blob.core.windows"
                    ++ ".net" ++ rest) = 1).
    { rewrite !append_assoc. exact C. }
    assert (Hold : "blob.core.windows" <> "") by discriminate.
    destruct (single_occurrence_unique _ _ _ _ _ Hold C1 U1) as [P _].
    replace (pre ++ "/" ++ acct ++ ".") with ((pre ++ "/" ++ acct) ++ ".") in P
      by (rewrite !append_assoc; reflexivity).
    replace (pre' ++ "/" ++ acct' ++ ".") with ((pre' ++ "/" ++ acct') ++ ".") in P
      by (rewrite !append_assoc; reflexivity).
    apply append_cancel_r in P.
    destruct (last_segment_unique _ _ _ _ Hacct Hacct' P) as [_ <-].
    reflexivity.
  - exfalso. revert E. now apply BLOB_REGEX_complete.
Qed.

End BlobCDNSingle.

(** What [replace] leaves behind, when the first character of [new] does not
    occur in [old] and the first character of [old] does not occur in
    [new]: no occurrence of [old]. *)
Section ReplaceResult.
Import RenderSpec.
Variables (o a : ascii) (old' new' : string).
Let old := String o old'.
Let new := String a new'.
Hypothesis new_free_of_o : all_chars (fun c => negb (c =? o)%char) new = true.
Hypothesis old_free_of_a : all_chars (fun c => negb (c =? a)%char) old = true.

Lemma str_replace_from_step (c : ascii) (s : string) :
  str_replace_from old new (String c s) 0
  = if prefix old (String c s)
    then new ++ str_replace_from old new s (String.length old - 1)
    else String c (str_replace_from old new s 0).
Proof. reflexivity. Qed.

Lemma prefix_of_replaced (t s : string) :
  all_chars (fun c => negb (c =? a)%char) t = true ->
  prefix t (str_replace_from old new s 0) = true -> prefix t s = true.
Proof.
  revert t. induction s as [|c s IH]; intros t Ht H; [exact H |].
  destruct t as [|x t]; [reflexivity |].
  simpl in Ht. apply andb_true_iff in Ht. destruct Ht as [Hx Ht].
  rewrite str_replace_from_step in H.
  destruct (prefix old (String c s)).
  - exfalso. unfold new in H. simpl in H.
    destruct (ascii_dec x a) as [->|_]; [| discriminate].
    rewrite Ascii.eqb_refl in Hx. discriminate.
  - simpl in H |- *.
    destruct (ascii_dec x c); [| discriminate]. now apply IH.
Qed.

Lemma count_occurrences_skip (n r : string) :
  all_chars (fun c => negb (c =? o)%char) n = true ->
  count_occurrences old (n ++ r) = count_occurrences old r.
Proof.
  induction n as [|c n IH]; intros H; [reflexivity |].
  simpl in H. apply andb_true_iff in H. destruct H as [Hc H].
  change (String c n ++ r) with (String c (n ++ r)).
  rewrite count_occurrences_cons, (IH H).
  unfold old. simpl.
  destruct (ascii_dec o c) as [->|_]; [| reflexivity].
  rewrite Ascii.eqb_refl in Hc. discriminate.
Qed.

Lemma count_occurrences_replaced (s : string) (k : nat) :
  count_occurrences old (str_replace_from old new s k) = 0.
Proof.
  revert k. induction s as [|c s IH]; intros k; [reflexivity |].
  destruct k as [|k]; [| exact (IH k)].
  rewrite str_replace_from_step.
  destruct (prefix old (String c s)) eqn:P.
  - rewrite (count_occurrences_skip _ _ new_free_of_o). apply IH.
  - rewrite count_occurrences_cons, IH.
    destruct (prefix old (String c (str_replace_from old new s 0))) eqn:Q;
      [| reflexivity].
    assert (Q' : prefix old (str_replace_from old new (String c s) 0) = true).
    { rewrite str_replace_from_step, P. exact Q. }
    apply (prefix_of_replaced _ _ old_free_of_a) in Q'. congruence.
Qed.

End ReplaceResult.

Section BlobCDNRewritten.
Import render RenderSpec.

Lemma azureedge_replaced (s : string) :
  count_occurrences "blob.core.windows"
    (str_replace "blob.core.windows" "azureedge" s) = 0.
Proof.
  exact (count_occurrences_replaced "b" "a" "lob.core.windows" "zureedge"
           eq_refl eq_refl s 0).
Qed.

Lemma transform_if_available_free_or_same (url : string) :
  transform_if_available url = url
  \/ count_occurrences "blob.core.windows" (transform_if_available url) = 0.
Proof.
  rewrite transform_if_available_cases.
  destruct (re_match BLOB_REGEX url) as [[|acct l]|]; auto.
  destruct (set_mem acct STORAGE_ACCOUNTS_WITH_CDNS); auto.
  right. apply azureedge_replaced.
Qed.

Lemma transform_if_available_no_occurrence (url : string) :
  count_occurrences "blob.core.windows" url = 0 ->
  transform_if_available url = url.
Proof.
  intros C. rewrite transform_if_available_cases.
  destruct (re_match BLOB_REGEX url) as [caps|] eqn:E; [| reflexivity].
  pose proof (BLOB_REGEX_occurrence _ _ E). lia.
Qed.

End BlobCDNRewritten.

(** X1.  [BLOB_REGEX] matches a URL exactly when the URL has a non-empty
    account segment without slashes that stands right after a [/] and right
    before [.blob.core.windows.net], the text before that [/] holding no
    newline; a match captures one group. *)
Theorem BLOB_REGEX_matches_iff :
  forall url : string,
    (exists acct, re_match render.BLOB_REGEX url = Some [acct])
    <-> (exists pre acct rest,
           url = pre ++ "/" ++ acct ++ ".blob.core.windows.net" ++ rest
           /\ RenderSpec.all_chars dot pre = true /\ acct <> ""
           /\ RenderSpec.all_chars not_slash acct = true).
Proof.
  intros url. split.
  - intros [acct E].
    destruct (BLOB_REGEX_sound _ _ E) as [pre [a [rest [U [_ [N [S D]]]]]]].
    now exists pre, a, rest.
  - intros [pre [acct [rest [-> [D [N S]]]]]].
    pose proof (BLOB_REGEX_complete pre acct rest D N S) as C.
    destruct (re_match render.BLOB_REGEX
                (pre ++ "/" ++ acct ++ ".blob.core.windows.net" ++ rest))
      as [caps|] eqn:E; [| contradiction].
    destruct (BLOB_REGEX_sound _ _ E) as [_ [a [_ [_ [-> _]]]]].
    now exists a.
Qed.

(** X2.  On a URL [pre/acct.blob.core.windows.net rest] in which
    [blob.core.windows] occurs once ([pre] without newline, [acct] non-empty
    and without slash), the pattern captures [acct]; the URL comes back with
    its host alone rewritten to [acct.azureedge.net] when [acct] is in the
    allow-list, and unchanged when it is not. *)
Theorem transform_if_available_single_host :
  forall pre acct rest : string,
    RenderSpec.all_chars dot pre = true ->
    acct <> "" ->
    RenderSpec.all_chars not_slash acct = true ->
    RenderSpec.count_occurrences "blob.core.windows"
      (pre ++ "/" ++ acct ++ ".blob.core.windows.net" ++ rest) = 1 ->
    re_match render.BLOB_REGEX
      (pre ++ "/" ++ acct ++ ".blob.core.windows.net" ++ rest) = Some [acct]
    /\ render.transform_if_available
         (pre ++ "/" ++ acct ++ ".blob.core.windows.net" ++ rest)
       = if render.set_mem acct render.STORAGE_ACCOUNTS_WITH_CDNS
         then RenderSpec.host_rewrite pre acct rest
         else pre ++ "/" ++ acct ++ ".blob.core.windows.net" ++ rest.
Proof.
  intros pre acct rest D N S C.
  pose proof (BLOB_REGEX_single pre acct rest D N S C) as E.
  split; [exact E |].
  rewrite transform_if_available_cases, E.
  destruct (render.set_mem acct render.STORAGE_ACCOUNTS_WITH_CDNS); [| reflexivity].
  unfold RenderSpec.host_rewrite.
  change (str_replace "blob.core.windows" "azureedge"
            (pre ++ "/" ++ acct ++ ".blob.core.windows.net" ++ rest))
    with (str_replace_from "blob.core.windows" "azureedge"
            (pre ++ "/" ++ acct ++ ".blob.core.windows.net" ++ rest) 0).
  assert (U : pre ++ "/" ++ acct ++ ".blob.core.windows.net" ++ rest
              = (pre ++ "/" ++ acct ++ ".") ++ "blob.core.windows"
                ++ ".net" ++ rest).
  { rewrite !append_assoc. reflexivity. }
  rewrite U in C |- *.
  assert (Hold : "blob.core.windows" <> "") by discriminate.
  rewrite (str_replace_from_single _ _ _ _ Hold C).
  rewrite !append_assoc. reflexivity.
Qed.

Lemma transform_if_available_single_host_naip :
  re_match render.BLOB_REGEX
    ("https:/" ++ "/" ++ "naipeuwest" ++ ".blob.core.windows.net" ++ "/x/y.tif")
  = Some ["naipeuwest"]
  /\ render.transform_if_available
       ("https:/" ++ "/" ++ "naipeuwest" ++ ".blob.core.windows.net" ++ "/x/y.tif")
     = "https://naipeuwest.azureedge.net/x/y.tif".
Proof.
  exact (transform_if_available_single_host "https:/" "naipeuwest" "/x/y.tif"
           eq_refl ltac:(discriminate) eq_refl eq_refl).
Defined.

(** X3.  When the rewrite applies (the pattern matches and the captured
    account is in the allow-list), the URL returned holds no occurrence of
    [blob.core.windows] any more, and the pattern does not match it. *)
Theorem transform_if_available_removes_blob_host :
  forall (url acct : string),
    re_match render.BLOB_REGEX url = Some [acct] ->
    render.set_mem acct render.STORAGE_ACCOUNTS_WITH_CDNS = true ->
    RenderSpec.count_occurrences "blob.core.windows"
      (render.transform_if_available url) = 0
    /\ re_match render.BLOB_REGEX (render.transform_if_available url) = None.
Proof.
  intros url acct E M.
  assert (C : RenderSpec.count_occurrences "blob.core.windows"
                (render.transform_if_available url) = 0).
  { rewrite transform_if_available_cases, E, M. apply azureedge_replaced. }
  split; [exact C |].
  destruct (re_match render.BLOB_REGEX (render.transform_if_available url))
    as [caps|] eqn:E'; [| reflexivity].
  pose proof (BLOB_REGEX_occurrence _ _ E'). lia.
Qed.

Lemma transform_if_available_removes_blob_host_path :
  RenderSpec.count_occurrences "blob.core.windows"
    (render.transform_if_available RenderSpec.naip_url_path) = 0
  /\ re_match render.BLOB_REGEX
       (render.transform_if_available RenderSpec.naip_url_path) = None.
Proof.
  exact (transform_if_available_removes_blob_host RenderSpec.naip_url_path
           "naipeuwest" eq_refl eq_refl).
Defined.

(** X4.  [transform_if_available] is idempotent: applying it to its own
    result changes nothing. *)
Theorem transform_if_available_idempotent :
  forall url : string,
    render.transform_if_available (render.transform_if_available url)
    = render.transform_if_available url.
Proof.
  intros url.
  destruct (transform_if_available_free_or_same url) as [E|C].
  - now rewrite E.
  - now apply transform_if_available_no_occurrence.
Qed.

(** X16.  [transform_if_available] changes a URL only if the URL holds the
    host of the allow-listed account right after a [/], that is
    [/naipeuwest.blob.core.windows.net]; every other URL is returned as it
    is. *)
Theorem transform_if_available_changes_only_naipeuwest :
  forall url : string,
    render.transform_if_available url <> url ->
    exists pre rest,
      url = pre ++ "/naipeuwest.blob.core.windows.net" ++ rest
      /\ render.transform_if_available url
         = str_replace "blob.core.windows" "azureedge" url.
Proof.
  intros url H. rewrite transform_if_available_cases in H |- *.
  destruct (re_match render.BLOB_REGEX url) as [caps|] eqn:E;
    [| contradiction].
  destruct (BLOB_REGEX_sound _ _ E) as [pre [acct [rest [U [-> _]]]]].
  destruct (render.set_mem acct render.STORAGE_ACCOUNTS_WITH_CDNS) eqn:M;
    [| contradiction].
  exists pre, rest. split; [| reflexivity].
  unfold render.set_mem, render.STORAGE_ACCOUNTS_WITH_CDNS in M.
  cbn [existsb] in M. rewrite orb_false_r in M.
  apply String.eqb_eq in M. subst acct. exact U.
Qed.

Lemma transform_if_available_changes_only_naipeuwest_naip :
  exists pre rest,
    RenderSpec.naip_url = pre ++ "/naipeuwest.blob.core.windows.net" ++ rest
    /\ render.transform_if_available RenderSpec.naip_url
       = str_replace "blob.core.windows" "azureedge" RenderSpec.naip_url.
Proof.
  apply transform_if_available_changes_only_naipeuwest. discriminate.
Defined.

(** *** models.py: more on the render options *)

Section RenderOptionsMore.
Import RequestSpec models.

Lemma get_render_options_ok (rp : string) (d : dict (list string)) :
  _get_render_options rp = Ok d ->
  Forall well_formed (segments rp) /\ d = grouped (pairs_of (segments rp)).
Proof.
  intros H. destruct (malformed_dec rp) as [M|W].
  - destruct (get_render_options_malformed rp M) as [e E]. congruence.
  - split; [exact W |]. rewrite (get_render_options_grouped rp W) in H.
    now injection H.
Qed.

Lemma grouped_keys (l : list (string * string)) :
  List.map fst (grouped l) = first_seen (List.map fst l).
Proof.
  unfold grouped. rewrite map_map. simpl. apply map_id.
Qed.

Lemma grouped_In (l : list (string * string)) (k : string) (vs : list string) :
  In (k, vs) (grouped l) -> In k (List.map fst l) /\ vs = values_of k l.
Proof.
  unfold grouped. rewrite in_map_iff. intros [k' [[= -> <-] H]].
  split; [| reflexivity]. now apply first_seen_In.
Qed.

(** A segment with an [=] is its key, the [=], and its value. *)
Lemma key_value_of (seg : string) :
  well_formed seg -> seg = key_of seg ++ "=" ++ value_of seg.
Proof.
  unfold well_formed. induction seg as [|a s IH]; simpl; [discriminate |].
  destruct (Ascii.eqb_spec a "=") as [->|N]; simpl; intros H; [reflexivity |].
  f_equal. exact (IH H).
Qed.

Lemma key_of_no_eq (seg : string) : count_char "=" (key_of seg) = 0.
Proof.
  induction seg as [|a s IH]; simpl; [reflexivity |].
  destruct (a =? "=")%char eqn:E; simpl; [reflexivity |].
  now rewrite E.
Qed.

Lemma key_value_of_pair (k v : string) :
  count_char "=" k = 0 ->
  key_of (k ++ "=" ++ v) = k /\ value_of (k ++ "=" ++ v) = v.
Proof.
  induction k as [|a k IH]; simpl; [auto |].
  destruct (a =? "=")%char; simpl; [discriminate |].
  intros H. destruct (IH H) as [E1 E2]. simpl in E1, E2.
  rewrite E1, E2. auto.
Qed.

Lemma count_char_append (c : ascii) (a b : string) :
  count_char c (a ++ b) = count_char c a + count_char c b.
Proof.
  induction a as [|x a IH]; simpl; [reflexivity |]. rewrite IH. lia.
Qed.

(** Splitting and joining on one character. *)
Lemma str_join_split (sep : ascii) (s : string) :
  String.concat (String sep "") (str_split sep s) = s.
Proof.
  induction s as [|a s IH]; simpl; [reflexivity |].
  destruct (Ascii.eqb_spec a sep) as [->|N].
  - destruct (str_split sep s) as [|h t] eqn:E.
    + now apply str_split_nonempty in E.
    + change (String.concat (String sep "") ("" :: h :: t))
        with (String sep (String.concat (String sep "") (h :: t))).
      now rewrite IH.
  - destruct (str_split sep s) as [|h t] eqn:E.
    + now apply str_split_nonempty in E.
    + destruct t as [|h' t]; simpl in *; now rewrite <- IH.
Qed.

Lemma str_split_pieces (sep : ascii) (s : string) :
  Forall (fun p => count_char sep p = 0) (str_split sep s).
Proof.
  induction s as [|a s IH]; simpl; [repeat constructor |].
  destruct (a =? sep)%char eqn:E.
  - constructor; [reflexivity | exact IH].
  - destruct (str_split sep s) as [|h t]; [repeat constructor; simpl; now rewrite E |].
    inversion IH; subst. constructor; [simpl; now rewrite E | assumption].
Qed.

Lemma str_split_join (sep : ascii) (l : list string) :
  l <> [] -> Forall (fun p => count_char sep p = 0) l ->
  str_split sep (String.concat (String sep "") l) = l.
Proof.
  assert (P : forall p r, count_char sep p = 0 ->
                str_split sep (p ++ String sep r) = p :: str_split sep r).
  { intros p r. induction p as [|a p IH]; simpl.
    - now rewrite Ascii.eqb_refl.
    - destruct (a =? sep)%char; [discriminate |].
      intros H. now rewrite (IH H). }
  induction l as [|p l IH]; intros Hne HF; [contradiction |].
  inversion HF as [|? ? Hp HF']; subst.
  destruct l as [|q l].
  - simpl. now apply str_split_no_sep.
  - change (String.concat (String sep "") (p :: q :: l))
      with (p ++ String sep (String.concat (String sep "") (q :: l))).
    rewrite (P _ _ Hp), IH; [reflexivity | discriminate | exact HF'].
Qed.

End RenderOptionsMore.

Section RenderOptionsErrors.
Import RequestSpec models.

Lemma dict_get_set_same {V : Type} (d : dict V) (k : string) (v : V) :
  dict_get (dict_set d k v) k = Some v.
Proof.
  induction d as [|[k0 v0] d IH]; simpl.
  - now rewrite String.eqb_refl.
  - destruct (k0 =? k)%string eqn:E; simpl; rewrite E; [reflexivity | exact IH].
Qed.

(** The only exception that leaves the loop is the [ValueError] of the
    unpacking: the key looked up has just been put in the dictionary. *)
Lemma render_options_loop_raises (ps : list string) (res : dict (list string))
    (e : exn) :
  render_options_loop ps res = Raise e -> exists msg, e = ValueError msg.
Proof.
  revert res. induction ps as [|p ps IH]; intros res; simpl; [discriminate |].
  unfold unpack2.
  destruct (str_split "=" p) as [|k [|v [|w l]]]; simpl;
    try (intros [= <-]; eexists; reflexivity).
  unfold dict_item, dict_mem.
  destruct (dict_get res k) as [vs|] eqn:G; simpl.
  - rewrite G. simpl. apply IH.
  - rewrite dict_get_set_same. simpl. apply IH.
Qed.

Lemma values_of_pairs_of (k : string) (l : list string) :
  values_of k (pairs_of l)
  = List.map value_of (filter (fun seg => (key_of seg =? k)%string) l).
Proof.
  unfold values_of, pairs_of.
  induction l as [|seg l IH]; [reflexivity |].
  cbn [List.map filter fst snd].
  destruct (key_of seg =? k)%string; cbn [List.map snd]; now rewrite IH.
Qed.

(** A string that ends with the separator has an empty last piece. *)
Lemma str_split_trailing (sep : ascii) (s : string) :
  exists l, l <> [] /\ str_split sep (s ++ String sep "") = (l ++ [""])%list.
Proof.
  induction s as [|a s [l [Hl IH]]]; simpl.
  - rewrite Ascii.eqb_refl. exists [""]. split; [discriminate | reflexivity].
  - rewrite IH. destruct (a =? sep)%char.
    + exists ("" :: l). split; [discriminate | reflexivity].
    + destruct l as [|h t]; [contradiction |].
      exists (String a h :: t). split; [discriminate | reflexivity].
Qed.

Lemma empty_segment_malformed (rp : string) :
  In "" (segments rp) -> malformed rp.
Proof.
  intros H. apply Exists_exists. exists "". split; [exact H |].
  unfold well_formed. simpl. discriminate.
Qed.

End RenderOptionsErrors.

(** X5.  [_get_render_options] returns a mapping exactly when every
    [&]-separated segment of the string has exactly one [=]; otherwise it
    raises a [ValueError], never another exception.  So the empty string, a
    string that ends with [&], and any string with an empty segment are
    refused. *)
Theorem get_render_options_succeeds_iff :
  forall rp : string,
    ((exists d, models._get_render_options rp = Ok d)
     <-> Forall RequestSpec.well_formed (RequestSpec.segments rp))
    /\ (forall e, models._get_render_options rp = Raise e ->
                  exists msg, e = ValueError msg)
    /\ (In "" (RequestSpec.segments rp) ->
        exists msg, models._get_render_options rp = Raise (ValueError msg))
    /\ (exists msg, models._get_render_options (rp ++ "&") = Raise (ValueError msg))
    /\ models._get_render_options ""
       = Raise (ValueError "not enough values to unpack (expected 2, got 1)").
Proof.
  intros rp.
  assert (R : forall s, RequestSpec.malformed s ->
                exists msg, models._get_render_options s = Raise (ValueError msg)).
  { intros s M. destruct (get_render_options_malformed s M) as [e E].
    destruct (render_options_loop_raises _ _ _ E) as [msg ->]. now exists msg. }
  split; [split |].
  - intros [d E]. exact (proj1 (get_render_options_ok _ _ E)).
  - intros W. eexists. exact (get_render_options_grouped _ W).
  - split; [exact (render_options_loop_raises _ _) |].
    split; [intros H; apply R; now apply empty_segment_malformed |].
    split; [| reflexivity].
    apply R, empty_segment_malformed. unfold RequestSpec.segments.
    destruct (str_split_trailing "&" rp) as [l [_ ->]].
    apply in_or_app. right. now left.
Qed.

(** X6.  The mapping that [_get_render_options] returns lists every key
    once, in the order the keys first occur in the string; no key has an
    empty list of values; the values of a key are the values of its segments
    in the order of the string; and a key is absent exactly when no segment
    has it. *)
Theorem get_render_options_mapping :
  forall (rp : string) (d : dict (list string)),
    models._get_render_options rp = Ok d ->
    NoDup (List.map fst d)
    /\ List.map fst d
       = RequestSpec.first_seen (List.map RequestSpec.key_of (RequestSpec.segments rp))
    /\ (forall k vs, In (k, vs) d ->
          vs <> []
          /\ dict_get d k = Some vs
          /\ vs = List.map RequestSpec.value_of
                    (filter (fun seg => (RequestSpec.key_of seg =? k)%string)
                            (RequestSpec.segments rp)))
    /\ (forall k, dict_get d k = None
                  <-> ~ In k (List.map RequestSpec.key_of (RequestSpec.segments rp))).
Proof.
  intros rp d H. destruct (get_render_options_ok _ _ H) as [W ->].
  assert (K : List.map fst (RequestSpec.pairs_of (RequestSpec.segments rp))
              = List.map RequestSpec.key_of (RequestSpec.segments rp)).
  { unfold RequestSpec.pairs_of. rewrite map_map. reflexivity. }
  pose proof (fun k => values_of_pairs_of k (RequestSpec.segments rp)) as V.
  rewrite grouped_keys, K.
  split; [apply first_seen_NoDup |]. split; [reflexivity |]. split.
  - intros k vs HIn. destruct (grouped_In _ _ _ HIn) as [Hk ->].
    pose proof (values_of_present _ _ Hk) as Hne.
    split; [exact Hne |]. split; [| apply V].
    rewrite dict_get_grouped.
    destruct (RequestSpec.values_of k
                (RequestSpec.pairs_of (RequestSpec.segments rp)));
      [contradiction | reflexivity].
  - intros k. rewrite dict_get_None_iff, grouped_keys, K.
    now rewrite first_seen_In.
Qed.

Lemma get_render_options_mapping_naip :
  exists d,
    models._get_render_options "collection=naip&asset=image&asset=visual" = Ok d
    /\ NoDup (List.map fst d)
    /\ List.map fst d = ["collection"; "asset"]
    /\ dict_get d "asset" = Some ["image"; "visual"]
    /\ dict_get d "item" = None.
Proof.
  eexists. split; [reflexivity |].
  destruct (get_render_options_mapping
              "collection=naip&asset=image&asset=visual" _ eq_refl)
    as [ND [K [_ _]]].
  split; [exact ND |]. split; [exact K |]. split; reflexivity.
Defined.

(** X7.  The [render_params] validator answers with one of four outcomes,
    tried in this order: [Invalid render_params] when a segment does not
    have exactly one [=]; [Missing collection in render_params] when no
    segment has the key [collection]; [Multiple collections in
    render_params] when more than one has; otherwise the string itself,
    unchanged. *)
Theorem validate_render_params_outcomes :
  forall rp : string,
    (RequestSpec.malformed rp ->
     models._validate_render_params rp
     = Raise (ValueError "Invalid render_params"))
    /\ (~ RequestSpec.malformed rp -> RequestSpec.collection_values rp = [] ->
        models._validate_render_params rp
        = Raise (ValueError "Missing collection in render_params"))
    /\ (~ RequestSpec.malformed rp ->
        (1 < List.length (RequestSpec.collection_values rp))%nat ->
        models._validate_render_params rp
        = Raise (ValueError "Multiple collections in render_params"))
    /\ (~ RequestSpec.malformed rp ->
        List.length (RequestSpec.collection_values rp) = 1%nat ->
        models._validate_render_params rp = Ok rp)
    /\ (forall v, models._validate_render_params rp = Ok v -> v = rp).
Proof.
  intros rp.
  repeat split; intros;
    destruct (validate_render_params_cases rp)
      as [[M E]|[[N [C E]]|[[N [C E]]|[N [[c C] E]]]]];
    unfold RequestSpec.collection_missing, RequestSpec.collection_multiple in *;
    first
      [ assumption
      | contradiction
      | congruence
      | lia
      | match goal with
        | H : RequestSpec.collection_values _ = _ |- _ =>
            rewrite H in *; simpl in *; first [lia | discriminate | congruence]
        end ].
Qed.

(** *** models.py: more on the encoded render parameters *)

Section EncodedMore.
Import RequestSpec models.

(** The key-value pairs a dictionary of value lists stands for. *)
Lemma flat_map_pairs_snoc (d : dict (list string)) (k v : string)
    (vs : list string) :
  dict_get d k = Some vs ->
  Permutation
    (flat_map (fun kv => List.map (pair (fst kv)) (snd kv))
              (dict_set d k (vs ++ [v])%list))
    (flat_map (fun kv => List.map (pair (fst kv)) (snd kv)) d ++ [(k, v)])%list.
Proof.
  induction d as [|[k0 v0] d IH]; simpl; [discriminate |].
  destruct (String.eqb_spec k0 k) as [->|N].
  - intros [= ->]. simpl. rewrite map_app. simpl.
    rewrite <- !app_assoc. apply Permutation_app_head.
    apply Permutation_app_comm.
  - intros H. simpl. rewrite <- app_assoc. apply Permutation_app_head.
    exact (IH H).
Qed.

Lemma flat_map_pairs_grouped (l : list (string * string)) :
  Permutation
    (flat_map (fun kv => List.map (pair (fst kv)) (snd kv)) (grouped l)) l.
Proof.
  induction l as [|[k v] l IH] using rev_ind; [reflexivity |].
  destruct (loop_body_grouped l k v) as [vs [E1 E2]]. cbv zeta in E1, E2.
  rewrite <- E2. unfold dict_item in E1.
  destruct (dict_mem k (grouped l)) eqn:M; simpl in E1, E2 |- *.
  - destruct (dict_get (grouped l) k) as [vs'|] eqn:G; [| discriminate].
    injection E1 as ->.
    rewrite (flat_map_pairs_snoc _ _ _ _ G).
    now apply Permutation_app_tail.
  - unfold dict_mem in M.
    destruct (dict_get (grouped l) k) as [vs'|] eqn:G; [discriminate |].
    rewrite (dict_set_absent _ _ _ G) in E1 |- *.
    rewrite (dict_get_last _ _ _ G) in E1. injection E1 as <-.
    rewrite (dict_set_last _ _ _ _ G). simpl.
    rewrite flat_map_app. simpl.
    now apply Permutation_app_tail.
Qed.

Lemma flat_map_encode (d : dict (list string)) :
  flat_map (fun kv => List.map (fun v => fst kv ++ "=" ++ quote v) (snd kv)) d
  = List.map (fun p => fst p ++ "=" ++ quote (snd p))
      (flat_map (fun kv => List.map (pair (fst kv)) (snd kv)) d).
Proof.
  induction d as [|[k vs] d IH]; [reflexivity |].
  cbn [flat_map fst snd]. rewrite map_app, map_map, IH. reflexivity.
Qed.

(** With every key once, grouping changes nothing. *)
Lemma first_seen_NoDup_id (l : list string) : NoDup l -> first_seen l = l.
Proof.
  induction 1 as [|x l Hx ND IH]; simpl; [reflexivity |].
  rewrite IH. f_equal.
  rewrite <- (filter_ext_in (fun _ => true)); [apply forallb_filter_id |].
  - now apply forallb_forall.
  - intros y Hy. symmetry. apply negb_true_iff, String.eqb_neq. congruence.
Qed.

Lemma values_of_unique (l : list (string * string)) (k v : string) :
  NoDup (List.map fst l) -> In (k, v) l -> values_of k l = [v].
Proof.
  unfold values_of. induction l as [|[k0 v0] l IH]; simpl; [contradiction |].
  intros ND HIn. inversion ND as [|? ? Hk0 ND']; subst.
  destruct HIn as [[= -> ->]|HIn].
  - rewrite String.eqb_refl. simpl. f_equal.
    apply (values_of_absent k l Hk0).
  - destruct (String.eqb_spec k0 k) as [->|N].
    + exfalso. apply Hk0. apply in_map_iff. now exists (k, v).
    + now apply IH.
Qed.

Lemma grouped_NoDup (l : list (string * string)) :
  NoDup (List.map fst l) -> grouped l = List.map (fun p => (fst p, [snd p])) l.
Proof.
  intros ND. unfold grouped. rewrite (first_seen_NoDup_id _ ND), map_map.
  apply map_ext_in. intros [k v] HIn. simpl.
  now rewrite (values_of_unique l k v ND HIn).
Qed.

Lemma quote_safe_id (v : string) :
  RenderSpec.all_chars quote_safe v = true -> quote v = v.
Proof.
  induction v as [|c v IH]; simpl; [reflexivity |].
  intros H. apply andb_true_iff in H. destruct H as [Hc H].
  now rewrite Hc, (IH H).
Qed.

End EncodedMore.

(** X8.  The pairs that [get_encoded_render_params] joins, before the final
    [tile_scale=2], are the segments of the string, each as its key, [=] and
    its percent-encoded value, up to order: no segment is lost and none is
    repeated, so there are as many pairs as segments. *)
Theorem get_encoded_render_params_permutation :
  forall (float datetime json : Type)
         (self : models.AnimationRequest float datetime json) (s : string),
    models.get_encoded_render_params self = Ok s ->
    exists pairs,
      s = String.concat "&" (pairs ++ ["tile_scale=2"])%list
      /\ Permutation pairs
           (List.map (fun seg => RequestSpec.key_of seg ++ "="
                                 ++ quote (RequestSpec.value_of seg))
                     (RequestSpec.segments (models.render_params self)))
      /\ List.length pairs
         = List.length (RequestSpec.segments (models.render_params self)).
Proof.
  intros float datetime json self s H.
  unfold models.get_encoded_render_params in H.
  destruct (models._get_render_options (models.render_params self))
    as [d|e] eqn:E; [| discriminate].
  destruct (get_render_options_ok _ _ E) as [W ->]. simpl in H.
  injection H as <-. unfold str_join.
  exists (flat_map
            (fun kv => List.map (fun v => fst kv ++ "=" ++ quote v) (snd kv))
            (RequestSpec.grouped
               (RequestSpec.pairs_of
                  (RequestSpec.segments (models.render_params self))))).
  split; [reflexivity |].
  assert (P : Permutation
                (flat_map
                   (fun kv => List.map (fun v => fst kv ++ "=" ++ quote v) (snd kv))
                   (RequestSpec.grouped
                      (RequestSpec.pairs_of
                         (RequestSpec.segments (models.render_params self)))))
                (List.map (fun seg => RequestSpec.key_of seg ++ "="
                                      ++ quote (RequestSpec.value_of seg))
                          (RequestSpec.segments (models.render_params self)))).
  { rewrite flat_map_encode.
    replace (List.map (fun seg => RequestSpec.key_of seg ++ "="
                                  ++ quote (RequestSpec.value_of seg))
                      (RequestSpec.segments (models.render_params self)))
      with (List.map (fun p => fst p ++ "=" ++ quote (snd p))
                     (RequestSpec.pairs_of
                        (RequestSpec.segments (models.render_params self))))
      by (unfold RequestSpec.pairs_of; now rewrite map_map).
    apply Permutation_map, flat_map_pairs_grouped. }
  split; [exact P |].
  rewrite (Permutation_length P). apply length_map.
Qed.

Lemma get_encoded_render_params_permutation_naip :
  exists pairs,
    "collection=naip&asset=image&asset=visual&tile_scale=2"
    = String.concat "&" (pairs ++ ["tile_scale=2"])%list
    /\ Permutation pairs
         (List.map (fun seg => RequestSpec.key_of seg ++ "="
                               ++ quote (RequestSpec.value_of seg))
                   (RequestSpec.segments
                      (models.render_params RequestSpec.naip_request)))
    /\ List.length pairs
       = List.length (RequestSpec.segments
                        (models.render_params RequestSpec.naip_request)).
Proof.
  exact (get_encoded_render_params_permutation _ _ _ RequestSpec.naip_request
           "collection=naip&asset=image&asset=visual&tile_scale=2" eq_refl).
Defined.

(** X9.  When every segment has exactly one [=], no key occurs twice and
    every value consists of characters that [quote] keeps (letters, digits
    and [_.-~/]), [get_encoded_render_params] returns the string as it is,
    followed by [&tile_scale=2]. *)
Theorem get_encoded_render_params_unchanged :
  forall (float datetime json : Type)
         (self : models.AnimationRequest float datetime json),
    let rp := models.render_params self in
    Forall RequestSpec.well_formed (RequestSpec.segments rp) ->
    NoDup (List.map RequestSpec.key_of (RequestSpec.segments rp)) ->
    Forall (fun seg => RenderSpec.all_chars quote_safe (RequestSpec.value_of seg) = true)
           (RequestSpec.segments rp) ->
    models.get_encoded_render_params self = Ok (rp ++ "&tile_scale=2").
Proof.
  intros float datetime json self rp W ND S.
  unfold models.get_encoded_render_params. fold rp.
  rewrite (get_render_options_grouped rp W).
  unfold bind. cbv beta iota zeta. f_equal.
  assert (K : List.map fst (RequestSpec.pairs_of (RequestSpec.segments rp))
              = List.map RequestSpec.key_of (RequestSpec.segments rp)).
  { unfold RequestSpec.pairs_of. now rewrite map_map. }
  rewrite grouped_NoDup by now rewrite K.
  assert (F : flat_map
                (fun kv => List.map (fun v => fst kv ++ "=" ++ quote v) (snd kv))
                (List.map (fun p => (fst p, [snd p]))
                          (RequestSpec.pairs_of (RequestSpec.segments rp)))
              = RequestSpec.segments rp).
  { unfold RequestSpec.pairs_of. clear ND K.
    induction (RequestSpec.segments rp) as [|seg l IH]; [reflexivity |].
    inversion W as [|? ? Wseg W']; inversion S as [|? ? Sseg S']; subst.
    cbn [List.map flat_map fst snd app].
    rewrite (IH W' S'), (quote_safe_id _ Sseg), <- (key_value_of seg Wseg).
    reflexivity. }
  rewrite F. unfold str_join.
  rewrite concat_snoc by apply str_split_nonempty.
  unfold RequestSpec.segments. now rewrite (str_join_split "&" rp).
Qed.

Lemma get_encoded_render_params_unchanged_naip :
  models.get_encoded_render_params
    (RequestSpec.example_request "collection=naip&asset=image" "days" 10)
  = Ok ("collection=naip&asset=image" ++ "&tile_scale=2").
Proof.
  apply (get_encoded_render_params_unchanged _ _ _
           (RequestSpec.example_request "collection=naip&asset=image" "days" 10)).
  - repeat constructor.
  - repeat constructor; simpl; intuition discriminate.
  - repeat constructor.
Defined.

Section EncodedAgain.
Import RequestSpec models.

Lemma hex_digit_safe (n : nat) : quote_safe (hex_digit n) = true.
Proof.
  do 15 (destruct n as [|n]; [reflexivity |]). reflexivity.
Qed.

(** [quote] writes only characters it keeps and [%]. *)
Lemma quote_no_char (c : ascii) (v : string) :
  quote_safe c = false -> c <> "%"%char -> count_char c (quote v) = 0.
Proof.
  intros Hc Hp.
  assert (S : forall x, quote_safe x = true -> (x =? c)%char = false).
  { intros x Hx. apply Ascii.eqb_neq. intros ->. congruence. }
  induction v as [|x v IH]; [reflexivity |].
  cbn [quote]. destruct (quote_safe x) eqn:Hx.
  - cbn [count_char]. now rewrite (S x Hx), IH.
  - unfold percent_byte. cbn [append count_char].
    rewrite !(S _ (hex_digit_safe _)), IH.
    destruct (Ascii.eqb_spec "%" c) as [E|_]; [now subst | reflexivity].
Qed.

Lemma key_of_count (c : ascii) (seg : string) :
  count_char c seg = 0 -> count_char c (key_of seg) = 0.
Proof.
  induction seg as [|a s IH]; simpl; [trivial |].
  destruct (a =? "=")%char; simpl; [trivial |].
  destruct (a =? c)%char; simpl; [discriminate | exact IH].
Qed.

(** Filtering the pairs of a tabulated dictionary by one key. *)
Lemma values_of_tabulate (f : string -> list string) (ks : list string)
    (k : string) :
  NoDup ks ->
  values_of k (flat_map (fun kv => List.map (pair (fst kv)) (snd kv))
                        (List.map (fun k' => (k', f k')) ks))
  = if existsb (String.eqb k) ks then f k else [].
Proof.
  assert (A : forall k' vs, k' <> k -> values_of k (List.map (pair k') vs) = []).
  { intros k' vs N. unfold values_of. induction vs as [|v vs IH]; simpl;
      [reflexivity |].
    destruct (String.eqb_spec k' k); [contradiction | exact IH]. }
  assert (B : forall vs, values_of k (List.map (pair k) vs) = vs).
  { intros vs. unfold values_of. induction vs as [|v vs IH]; simpl;
      [reflexivity |].
    rewrite String.eqb_refl. simpl. now rewrite IH. }
  assert (C : forall l1 l2, values_of k (l1 ++ l2)
                            = (values_of k l1 ++ values_of k l2)%list).
  { intros l1 l2. unfold values_of. now rewrite filter_app, map_app. }
  induction ks as [|x ks IH]; intros ND; [reflexivity |].
  inversion ND as [|? ? Hx ND']; subst.
  cbn [List.map flat_map fst snd existsb]. rewrite C, (IH ND').
  destruct (String.eqb_spec k x) as [->|N].
  - rewrite B. simpl.
    destruct (existsb (String.eqb x) ks) eqn:E; [| apply app_nil_r].
    apply existsb_eqb_In in E. contradiction.
  - rewrite A by congruence. reflexivity.
Qed.

Lemma values_of_flat_grouped (l : list (string * string)) (k : string) :
  values_of k (flat_map (fun kv => List.map (pair (fst kv)) (snd kv)) (grouped l))
  = values_of k l.
Proof.
  unfold grouped.
  rewrite (values_of_tabulate (fun k' => values_of k' l) _ k (first_seen_NoDup _)).
  destruct (existsb (String.eqb k) (first_seen (List.map fst l))) eqn:E;
    [reflexivity |].
  symmetry. apply values_of_absent. intros H.
  apply (proj2 (first_seen_In _ _)) in H.
  apply (proj2 (existsb_eqb_In _ _)) in H. congruence.
Qed.

Lemma values_of_map_quote (k : string) (l : list (string * string)) :
  values_of k (List.map (fun p => (fst p, quote (snd p))) l)
  = List.map quote (values_of k l).
Proof.
  unfold values_of. induction l as [|[k0 v0] l IH]; [reflexivity |].
  cbn [List.map filter fst snd].
  destruct (k0 =? k)%string; cbn [List.map snd]; now rewrite IH.
Qed.

(** The segments and the pairs of an encoded string. *)
Lemma encoded_segments (l : list (string * string)) :
  Forall (fun p => count_char "&" (fst p) = 0 /\ count_char "=" (fst p) = 0) l ->
  let encoded := (List.map (fun p => (fst p ++ "=" ++ quote (snd p))%string) l
                  ++ ["tile_scale=2"])%list in
  segments (String.concat "&" encoded) = encoded
  /\ Forall well_formed encoded
  /\ pairs_of encoded
     = (List.map (fun p => (fst p, quote (snd p))) l ++ [("tile_scale", "2")])%list.
Proof.
  intros H encoded.
  assert (Q1 : forall v, count_char "&" (quote v) = 0)
    by (intros v; now apply quote_no_char).
  assert (Q2 : forall v, count_char "=" (quote v) = 0)
    by (intros v; now apply quote_no_char).
  split; [| split].
  - unfold segments. apply str_split_join.
    + subst encoded. destruct l; discriminate.
    + subst encoded. apply Forall_app. split; [| repeat constructor].
      apply Forall_map. eapply Forall_impl; [| exact H].
      intros p [Hp _]. cbv beta.
      now rewrite !count_char_append, Hp, Q1.
  - subst encoded. apply Forall_app. split; [| repeat constructor].
    apply Forall_map. eapply Forall_impl; [| exact H].
    intros p [_ Hp]. unfold well_formed.
    now rewrite !count_char_append, Hp, Q2.
  - subst encoded. unfold pairs_of. rewrite map_app, map_map.
    f_equal. apply map_ext_in. intros p Hp.
    rewrite Forall_forall in H. destruct (H p Hp) as [_ Hk].
    destruct (key_value_of_pair (fst p) (quote (snd p)) Hk) as [-> ->].
    reflexivity.
Qed.

End EncodedAgain.



(** *** models.py: what an accepted request guarantees *)

Section Accepted.
Import RequestSpec models.

Lemma field_errors_nil (field : string) (r : result string) :
  field_errors field r = [] -> exists v, r = Ok v.
Proof.
  destruct r as [v|[msg|k| |]]; simpl; try discriminate. intros _. now exists v.
Qed.

Lemma get_relative_delta_unit {float datetime json : Type}
    (self : AnimationRequest float datetime json) :
  In (unit self) delta_units ->
  exists d, get_relative_delta self = Ok d.
Proof.
  unfold get_relative_delta, delta_units. intros H.
  repeat (destruct H as [<-|H]; [eexists; reflexivity |]). contradiction.
Qed.

End Accepted.




(** *** render.py and item.py: links, the table and the map endpoint *)

(** X13.  Collection links are added only when item links are: both need
    [create_links] and a configuration that is not hidden, and collection
    links need [has_mosaic] besides.  A hidden configuration gets
    neither. *)
Theorem should_add_links_relation :
  forall cfg : render.DefaultRenderConfig,
    (render.should_add_collection_links cfg = true ->
     render.should_add_item_links cfg = true)
    /\ (render.should_add_collection_links cfg = true
        <-> render.has_mosaic cfg = true /\ render.create_links cfg = true
            /\ render.hidden cfg = false)
    /\ (render.should_add_item_links cfg = true
        <-> render.create_links cfg = true /\ render.hidden cfg = false)
    /\ (render.hidden cfg = true ->
        render.should_add_collection_links cfg = false
        /\ render.should_add_item_links cfg = false).
Proof.
  intros cfg.
  unfold render.should_add_collection_links, render.should_add_item_links.
  destruct (render.has_mosaic cfg), (render.create_links cfg),
    (render.hidden cfg); simpl; intuition congruence.
Qed.

Section Table.
Import render.

Lemma dict_get_In {V : Type} (d : dict V) (k : string) (v : V) :
  dict_get d k = Some v -> In (k, v) d.
Proof.
  induction d as [|[k0 v0] d IH]; simpl; [discriminate |].
  destruct (String.eqb_spec k0 k) as [->|N].
  - intros [= ->]. now left.
  - intros H. right. exact (IH H).
Qed.

Lemma COLLECTION_RENDER_CONFIG_entries_ok :
  forallb TableSpec.entry_ok COLLECTION_RENDER_CONFIG = true.
Proof. vm_compute. reflexivity. Qed.

Lemma COLLECTION_RENDER_CONFIG_entry (collection : string)
    (cfg : DefaultRenderConfig) :
  dict_get COLLECTION_RENDER_CONFIG collection = Some cfg ->
  TableSpec.entry_ok (collection, cfg) = true.
Proof.
  intros H. apply dict_get_In in H.
  exact (proj1 (forallb_forall _ _) COLLECTION_RENDER_CONFIG_entries_ok _ H).
Qed.

End Table.

(** X14.  Every entry of [COLLECTION_RENDER_CONFIG] has a non-empty
    collection id, a mosaic preview zoom between its [minzoom] and its
    [maxzoom], preview coordinates that are a latitude in [-90, 90] and a
    longitude in [-180, 180], non-empty render parameters, and is not hidden;
    so it gets item links exactly when [create_links] is set. *)
Theorem COLLECTION_RENDER_CONFIG_invariants :
  forall (collection : string) (cfg : render.DefaultRenderConfig),
    dict_get render.COLLECTION_RENDER_CONFIG collection = Some cfg ->
    collection <> ""
    /\ (exists z mx,
          render.mosaic_preview_zoom cfg = Some z /\ render.maxzoom cfg = Some mx
          /\ (render.minzoom cfg <= z <= mx)%Z)
    /\ (exists lat lon,
          render.mosaic_preview_coords cfg = Some [lat; lon]
          /\ (-90 <= lat)%Q /\ (lat <= 90)%Q
          /\ (-180 <= lon)%Q /\ (lon <= 180)%Q)
    /\ render.render_params cfg <> []
    /\ render.hidden cfg = false
    /\ render.should_add_item_links cfg = render.create_links cfg.
Proof.
  intros collection cfg H.
  pose proof (COLLECTION_RENDER_CONFIG_entry _ _ H) as E.
  unfold TableSpec.entry_ok in E. cbn [fst snd] in E.
  repeat (apply andb_true_iff in E; destruct E as [E ?]).
  assert (Hh : render.hidden cfg = false) by now apply negb_true_iff.
  split; [| split; [| split; [| split; [| split]]]].
  - intros ->. discriminate.
  - unfold TableSpec.zoom_in_range in *.
    destruct (render.mosaic_preview_zoom cfg) as [z|]; [| discriminate].
    destruct (render.maxzoom cfg) as [mx|]; [| discriminate].
    exists z, mx. split; [reflexivity |]. split; [reflexivity |]. lia.
  - unfold TableSpec.coords_are_lat_lon in *.
    destruct (render.mosaic_preview_coords cfg) as [[|lat [|lon [|x l]]]|];
      try discriminate.
    exists lat, lon. split; [reflexivity |].
    repeat match goal with
           | H : (_ && _)%bool = true |- _ =>
               apply andb_true_iff in H; destruct H
           end.
    repeat split; now apply Qle_bool_iff.
  - destruct (render.render_params cfg); [discriminate | discriminate].
  - exact Hh.
  - unfold render.should_add_item_links. rewrite Hh. apply andb_true_r.
Qed.

Lemma COLLECTION_RENDER_CONFIG_invariants_alos_dem :
  "alos-dem" <> ""
  /\ (exists z mx,
        render.mosaic_preview_zoom RenderSpec.alos_dem = Some z
        /\ render.maxzoom RenderSpec.alos_dem = Some mx
        /\ (render.minzoom RenderSpec.alos_dem <= z <= mx)%Z)
  /\ (exists lat lon,
        render.mosaic_preview_coords RenderSpec.alos_dem = Some [lat; lon]
        /\ (-90 <= lat)%Q /\ (lat <= 90)%Q
        /\ (-180 <= lon)%Q /\ (lon <= 180)%Q)
  /\ render.render_params RenderSpec.alos_dem <> []
  /\ render.hidden RenderSpec.alos_dem = false
  /\ render.should_add_item_links RenderSpec.alos_dem
     = render.create_links RenderSpec.alos_dem.
Proof.
  exact (COLLECTION_RENDER_CONFIG_invariants "alos-dem" RenderSpec.alos_dem eq_refl).
Defined.

(** X15.  For a collection with an entry in the table, the map endpoint
    hands the template the tile-JSON URL followed by [?collection=<id>],
    then [&item=<item>] unless the item id is empty, then the entry's
    [&assets=] segments, then [&] and the entry's render parameters; the
    collection and item ids as given; and the item URL joined from
    [collections/<id>/items/<item>]. *)
Theorem map_template_context :
  forall (Request : Type) (url_for : Request -> string -> string)
         (stac_api_href : string) (urljoin : string -> string -> string)
         (param_str : dict render.param_value -> string)
         (request : Request) (collection item_id : string)
         (cfg : render.DefaultRenderConfig),
    dict_get render.COLLECTION_RENDER_CONFIG collection = Some cfg ->
    item.map Request url_for stac_api_href urljoin param_str
             request collection item_id
    = item.TemplateResponse "item_preview.html"
        {| item.request := request;
           item.tileJson :=
             url_for request "tilejson" ++ "?collection=" ++ collection
             ++ (if truthy item_id then "&item=" ++ item_id else "")
             ++ RenderSpec.assets_segments cfg ++ "&"
             ++ param_str (render.render_params cfg);
           item.collectionId := collection;
           item.itemId := item_id;
           item.itemUrl :=
             urljoin stac_api_href
               ("collections/" ++ collection ++ "/items/" ++ item_id) |}.
Proof.
  intros Request url_for stac_api_href urljoin param_str request collection
         item_id cfg H.
  pose proof (COLLECTION_RENDER_CONFIG_entry _ _ H) as E.
  unfold TableSpec.entry_ok in E. cbn [fst snd] in E.
  repeat (apply andb_true_iff in E; destruct E as [E ?]).
  unfold item.map. rewrite H, get_full_render_qs_parts, E.
  reflexivity.
Qed.

Lemma map_template_context_naip :
  item.map Datatypes.unit (fun _ name => "/item/" ++ name)
           "https://example.test/stac/" (fun a b => a ++ b)
           render.get_param_str tt "naip" "tile-1"
  = item.TemplateResponse "item_preview.html"
      {| item.request := tt;
         item.tileJson :=
           "/item/tilejson?collection=naip&item=tile-1&assets=image&asset_bidx=image|1,2,3";
         item.collectionId := "naip";
         item.itemId := "tile-1";
         item.itemUrl := "https://example.test/stac/collections/naip/items/tile-1" |}.
Proof.
  destruct (dict_get render.COLLECTION_RENDER_CONFIG "naip") as [cfg|] eqn:E;
    [| discriminate E].
  rewrite (map_template_context _ _ _ _ _ _ _ _ _ E).
  injection E as <-. reflexivity.
Defined.
